(** * Word chain bot: validation pipeline, chain state and karma

    A shallow embedding of the game logic of the word chain bot
    ([main.py], [model.py]) and the properties of its validation pipeline.

    Conventions of the embedding.
    - A Python [str] is a [string] of 8-bit characters; [str.lower] acts on
      the letters A-Z.
    - Discord and database identifiers are integers ([Z]); an
      [Optional[...]] attribute is an [option].
    - The SQLite tables are finite maps and finite sets keyed by their
      primary keys.
    - The [karma] column is a [float]; it is modelled by a rational number.
      Only the order of the rationals and [max] are used on it.
    - The module [consts.py] is not available; its constants are collected
      in the record [consts] and every definition is parametric in them. *)

From Equations Require Import Equations.
From Stdlib Require Import ZArith QArith Qminmax Lqa Ascii String List.
From stdpp Require Import base decidable option list gmap strings.

Local Open Scope string_scope.
Local Open Scope Z_scope.

(** ** Python helpers *)

(** [c.lower()] on one character. *)
Definition lower_ascii (c : ascii) : ascii :=
  let n := N_of_ascii c in
  if ((65 <=? n) && (n <=? 90))%N then ascii_of_N (n + 32) else c.

(** [s.lower()]. *)
Fixpoint lower (s : string) : string :=
  match s with
  | EmptyString => EmptyString
  | String c s' => String (lower_ascii c) (lower s')
  end.

(** [s[0]]; [None] stands for the [IndexError] on the empty string. *)
Definition first_char (s : string) : option ascii :=
  match s with
  | EmptyString => None
  | String c _ => Some c
  end.

(** [s[-1]]; [None] stands for the [IndexError] on the empty string. *)
Fixpoint last_char (s : string) : option ascii :=
  match s with
  | EmptyString => None
  | String c EmptyString => Some c
  | String _ s' => last_char s'
  end.

(** [c in chars] for a single character [c]. *)
Fixpoint char_in (c : ascii) (chars : string) : bool :=
  match chars with
  | EmptyString => false
  | String d chars' => if decide (c = d) then true else char_in c chars'
  end.

(** [all(c in chars for c in word)]. *)
Fixpoint all_chars_in (chars word : string) : bool :=
  match word with
  | EmptyString => true
  | String c word' => char_in c chars && all_chars_in chars word'
  end.

(** Truth value of an [Optional[int]]: [None] and [0] are falsy. *)
Definition truthy_int (o : option Z) : bool :=
  match o with
  | Some n => negb (n =? 0)
  | None => false
  end.

(** Truth value of an [Optional[str]]: [None] and the empty string are falsy. *)
Definition truthy_str (o : option string) : bool :=
  match o with
  | Some EmptyString => false
  | Some _ => true
  | None => false
  end.

(** [o == n] for an [Optional[int]] [o] and an [int] [n]. *)
Definition opt_int_eqb (o : option Z) (n : Z) : bool :=
  match o with
  | Some m => m =? n
  | None => false
  end.

(** [deque(maxlen=n).append(x)]: push on the right, evict on the left. *)
Definition deque_append {A} (maxlen : nat) (d : list A) (x : A) : list A :=
  let d' := (d ++ [x])%list in
  drop (List.length d' - maxlen) d'.

(** SQLite's two-argument scalar [max] on numbers. *)
Definition sql_max (a b : Q) : Q :=
  if Qle_bool a b then b else a.

(** ** Reaction emojis *)

Definition EMOJI_HIGH_SCORE : string := "🎉".
Definition EMOJI_100 : string := "💯".
Definition EMOJI_69 : string := "😏".
Definition EMOJI_666 : string := "👹".
Definition EMOJI_CHECK : string := "✅".
Definition EMOJI_BALLOT_CHECK : string := "☑️".
Definition EMOJI_WARNING : string := "⚠️".
Definition EMOJI_CROSS : string := "❌".

(** The literal dictionary [{100: .., 69: .., 666: ..}.get(count, default)]. *)
Definition special_emojis_get (count : Z) (default : string) : string :=
  if count =? 100 then EMOJI_100
  else if count =? 69 then EMOJI_69
  else if count =? 666 then EMOJI_666
  else default.

(** ** [main.py]: class [Config] *)

Module Config.

Record t := mk {
  channel_id : option Z;
  current_count : Z;
  current_word : option string;
  high_score : Z;
  current_member_id : option Z;
  put_high_score_emoji : bool;
  failed_role_id : option Z;
  reliable_role_id : option Z;
  failed_member_id : option Z;
  correct_inputs_by_failed_member : Z
}.

(** The dataclass defaults, [Config()]. *)
Definition default : t :=
  mk None 0 None 0 None false None None None 0.

Definition update_current (self : t) (member_id : Z) (word : string) : t :=
  let count := current_count self + 1 in
  mk (channel_id self) count (Some word)
     (Z.max (high_score self) count)
     (Some member_id) (put_high_score_emoji self)
     (failed_role_id self) (reliable_role_id self)
     (failed_member_id self) (correct_inputs_by_failed_member self).

Definition reset (self : t) : t :=
  mk (channel_id self) 0 (current_word self) (high_score self)
     (current_member_id self) false
     (failed_role_id self) (reliable_role_id self)
     (failed_member_id self) 0.

Definition set_put_high_score_emoji (self : t) (v : bool) : t :=
  mk (channel_id self) (current_count self) (current_word self)
     (high_score self) (current_member_id self) v
     (failed_role_id self) (reliable_role_id self)
     (failed_member_id self) (correct_inputs_by_failed_member self).

Definition set_failed_member (self : t) (member : option Z) (inputs : Z) : t :=
  mk (channel_id self) (current_count self) (current_word self)
     (high_score self) (current_member_id self) (put_high_score_emoji self)
     (failed_role_id self) (reliable_role_id self)
     member inputs.

(** Returns the emoji together with the mutated object. *)
Definition reaction_emoji (self : t) : string * t :=
  if (current_count self =? high_score self) && negb (put_high_score_emoji self)
  then (EMOJI_HIGH_SCORE, set_put_high_score_emoji self true)
  else (special_emojis_get (current_count self) EMOJI_CHECK, self).

End Config.

(** ** [model.py]: class [ServerConfig] *)

Module ServerConfig.

Record t := mk {
  server_id : Z;
  channel_id : option Z;
  current_count : Z;
  current_word : option string;
  high_score : Z;
  used_high_score_emoji : bool;
  reliable_role_id : option Z;
  failed_role_id : option Z;
  last_member_id : option Z;
  failed_member_id : option Z;
  correct_inputs_by_failed_member : Z;
  is_banned : bool
}.

Definition fail_chain (self : t) (member_id : Z) : t :=
  mk (server_id self) (channel_id self) 0 (current_word self)
     (high_score self) false
     (reliable_role_id self) (failed_role_id self) (last_member_id self)
     (Some member_id) 0 (is_banned self).

Definition update_current (self : t) (member_id : Z) (word : string) : t :=
  let count := current_count self + 1 in
  mk (server_id self) (channel_id self) count (Some word)
     (Z.max (high_score self) count) (used_high_score_emoji self)
     (reliable_role_id self) (failed_role_id self) (Some member_id)
     (failed_member_id self) (correct_inputs_by_failed_member self)
     (is_banned self).

Definition set_used_high_score_emoji (self : t) (v : bool) : t :=
  mk (server_id self) (channel_id self) (current_count self)
     (current_word self) (high_score self) v
     (reliable_role_id self) (failed_role_id self) (last_member_id self)
     (failed_member_id self) (correct_inputs_by_failed_member self)
     (is_banned self).

Definition reaction_emoji (self : t) : string * t :=
  if current_count self =? high_score self then
    if negb (used_high_score_emoji self)
    then (EMOJI_HIGH_SCORE, set_used_high_score_emoji self true)
    else (special_emojis_get (current_count self) EMOJI_BALLOT_CHECK, self)
  else (special_emojis_get (current_count self) EMOJI_CHECK, self).

End ServerConfig.

(** ** [model.py]: a row of the table [member] *)

Module Member.

(** The key [(server_id, member_id)] is the key of the table. *)
Record t := mk {
  score : Z;
  correct : Z;
  wrong : Z;
  karma : Q
}.

(** The row inserted for a player seen for the first time. *)
Definition new : t := mk 0 0 0 0%Q.

End Member.

(** ** [consts.py] *)

Record consts := {
  POSSIBLE_CHARACTERS : string;
  GLOBAL_BLACKLIST_2_LETTER_WORDS : gset string;
  GLOBAL_BLACKLIST_N_LETTER_WORDS : gset string;
  GLOBAL_WHITELIST_3_LETTER_WORDS : gset string;
  SPECIAL_REACTION_EMOJIS : gmap string string;
  MISTAKE_PENALTY : Q;
  HISTORY_LENGTH : nat
}.

(** ** The Wiktionary query *)

#[local] Set Warnings "-register-all".

(** A decoded JSON document. *)
Inductive json :=
| JNull
| JNumber (n : Z)
| JString (s : string)
| JArray (items : list json)
| JObject.

(** What [future.result(timeout=5)] delivers. *)
Inductive http_result :=
| HttpTimeout
| HttpFailure
| HttpResponse (status_code : Z) (body : option json).

(** Exceptions of a subscript [x[i]] that [get_query_response] tells apart. *)
Inductive subscript_result :=
| Item (v : json)
| IndexError
| OtherError.

(** [x[i]] for a non-negative literal [i]. *)
Definition subscript (x : json) (i : nat) : subscript_result :=
  match x with
  | JArray items =>
      match items !! i with
      | Some v => Item v
      | None => IndexError
      end
  | JString s =>
      match String.get i s with
      | Some c => Item (JString (String c EmptyString))
      | None => IndexError
      end
  | JNull | JNumber _ | JObject => OtherError
  end.

(** [x.lower()]; [None] stands for the [AttributeError] on a non-string. *)
Definition json_lower (x : json) : option string :=
  match x with
  | JString s => Some (lower s)
  | _ => None
  end.

(** ** Effects observed from outside *)

Inductive notice :=
| NoticeSingleLetter
| NoticeBlacklisted
| NoticeRepeated (word : string)
| NoticeWrongMember
| NoticeWrongLetter
| NoticeDoesNotExist
| NoticeBackendIssue
| NoticeMilestone (count : Z).

(** The calls and awaited operations of [on_message], in program order. *)
Inductive event :=
| AddReaction (emoji : string)
| ChannelSend (n : notice)
| IsWordWhitelisted (word : string)
| IsWordBlacklisted (word : string)
| IsWordInCache (word : string)
| StartApiQuery (word : string)
| GetQueryResponse (result : Z)
| SelectUsedWord (word : string)
| HandleMistake
| ScheduleBusyWork.

(** The [return] statement (or exception) at which [on_message] ends. *)
Inductive exit_point :=
| Ignored
| SingleLetter
| Blacklisted
| Repeated
| Mistake
| BackendFault
| Accepted
| Raised.

Record message := {
  author_is_self : bool;
  author_id : Z;
  channel_id : Z;
  guild_id : Z;
  content : string
}.

(** Errors of an executed SQL statement. *)
Inductive sql_error :=
| CompileError (unconsumed_column_names : list string).

(** The columns of the mapped class [WordCacheModel]. *)
Definition WordCacheModel_columns : list string := ["word"].

(** [insert(WordCacheModel).values(...).prefix_with('OR IGNORE')], executed
    with the given keyword arguments: a keyword that is not a column of the table is refused when
    the statement is compiled; a row that violates a constraint is skipped. *)
Definition insert_or_ignore_word_cache
    (kwargs : list (string * string)) (cache : gset string)
    : sql_error + gset string :=
  match List.filter (λ kv, negb (bool_decide (kv.1 ∈ WordCacheModel_columns))) kwargs with
  | [] =>
      match List.find (λ kv, bool_decide (kv.1 = "word")) kwargs with
      | Some kv => inr ({[kv.2]} ∪ cache)
      | None => inr cache
      end
  | unconsumed => inl (CompileError (unconsumed.*1))
  end.

(** ** [main.py]: class [Bot] *)

Module Bot.

Definition API_RESPONSE_WORD_EXISTS : Z := 1.
Definition API_RESPONSE_WORD_DOESNT_EXIST : Z := 0.
Definition API_RESPONSE_ERROR : Z := -1.

(** The tables reached through [Bot.SQL_ENGINE]. *)
Record database := mk_database {
  member : gmap (Z * Z) Member.t;
  used_words : gset (Z * string);
  word_cache : gset string;
  blacklist : gset (Z * string);
  whitelist : gset (Z * string)
}.

Record t := mk {
  _config : Config.t;
  _busy : Z;
  _cached_words : option (gset string);
  _participating_users : option (gset Z);
  _history : gmap Z (list string);
  failed_role : option Z;
  SQL_ENGINE : database
}.

Record result := mk_result {
  final : t;
  trace : list event;
  exit : exit_point
}.

Definition set_member (db : database) (m : gmap (Z * Z) Member.t) : database :=
  mk_database m (used_words db) (word_cache db) (blacklist db) (whitelist db).

Definition set_used_words (db : database) (u : gset (Z * string)) : database :=
  mk_database (member db) u (word_cache db) (blacklist db) (whitelist db).

Definition set_word_cache (db : database) (c : gset string) : database :=
  mk_database (member db) (used_words db) c (blacklist db) (whitelist db).

Definition set_config (self : t) (c : Config.t) : t :=
  mk c (_busy self) (_cached_words self) (_participating_users self)
     (_history self) (failed_role self) (SQL_ENGINE self).

Definition set_busy (self : t) (n : Z) : t :=
  mk (_config self) n (_cached_words self) (_participating_users self)
     (_history self) (failed_role self) (SQL_ENGINE self).

Definition set_cached_words (self : t) (w : option (gset string)) : t :=
  mk (_config self) (_busy self) w (_participating_users self)
     (_history self) (failed_role self) (SQL_ENGINE self).

Definition set_participating_users (self : t) (u : option (gset Z)) : t :=
  mk (_config self) (_busy self) (_cached_words self) u
     (_history self) (failed_role self) (SQL_ENGINE self).

Definition set_history (self : t) (h : gmap Z (list string)) : t :=
  mk (_config self) (_busy self) (_cached_words self)
     (_participating_users self) h (failed_role self) (SQL_ENGINE self).

Definition set_SQL_ENGINE (self : t) (db : database) : t :=
  mk (_config self) (_busy self) (_cached_words self)
     (_participating_users self) (_history self) (failed_role self) db.

(** [get_query_response]: the three-valued verdict on a finished query. *)
Definition get_query_response (future : http_result) : Z :=
  match future with
  | HttpTimeout => API_RESPONSE_ERROR
  | HttpFailure => API_RESPONSE_ERROR
  | HttpResponse status_code body =>
      if 400 <=? status_code then API_RESPONSE_ERROR
      else
        match body with
        | None => API_RESPONSE_ERROR
        | Some data =>
            match subscript data 0 with
            | IndexError => API_RESPONSE_WORD_DOESNT_EXIST
            | OtherError => API_RESPONSE_ERROR
            | Item word =>
                match subscript data 1 with
                | IndexError => API_RESPONSE_WORD_DOESNT_EXIST
                | OtherError => API_RESPONSE_ERROR
                | Item matches =>
                    match subscript matches 0 with
                    | IndexError => API_RESPONSE_WORD_DOESNT_EXIST
                    | OtherError => API_RESPONSE_ERROR
                    | Item best_match =>
                        match json_lower best_match, json_lower word with
                        | Some b, Some w =>
                            if decide (b = w) then API_RESPONSE_WORD_EXISTS
                            else API_RESPONSE_WORD_DOESNT_EXIST
                        | _, _ => API_RESPONSE_ERROR
                        end
                    end
                end
            end
        end
  end.

Definition is_word_in_cache (word : string) (connection : database) : bool :=
  bool_decide (word ∈ word_cache connection).

Definition is_word_whitelisted (word : string) (server_id : Z)
    (connection : database) : bool :=
  bool_decide ((server_id, word) ∈ whitelist connection).

Section WithConsts.

Context (K : consts).
(** The environment switch [SINGLE_PLAYER]. *)
Context (SINGLE_PLAYER : bool).
(** [calculate_total_karma], imported from the module [data], which is not
    available. *)
Context (calculate_total_karma : string → list string → Q).

(** The part of [is_word_blacklisted] before the server is looked at. *)
Definition globally_blacklisted (word : string) : bool :=
  bool_decide (word ∈ GLOBAL_BLACKLIST_2_LETTER_WORDS K)
  || bool_decide (word ∈ GLOBAL_BLACKLIST_N_LETTER_WORDS K)
  || (Nat.eqb (String.length word) 3
      && negb (bool_decide (word ∈ GLOBAL_WHITELIST_3_LETTER_WORDS K))).

Definition is_word_blacklisted (word : string) (server_id : option Z)
    (connection : option database) : bool :=
  if bool_decide (word ∈ GLOBAL_BLACKLIST_2_LETTER_WORDS K)
     || bool_decide (word ∈ GLOBAL_BLACKLIST_N_LETTER_WORDS K)
  then true
  else if Nat.eqb (String.length word) 3
          && negb (bool_decide (word ∈ GLOBAL_WHITELIST_3_LETTER_WORDS K))
  then true
  else
    match server_id, connection with
    | Some sid, Some db => bool_decide ((sid, word) ∈ blacklist db)
    | _, _ => false
    end.

(** The member update of [handle_mistake]. *)
Definition penalize (m : Member.t) : Member.t :=
  Member.mk (Member.score m - 1) (Member.correct m) (Member.wrong m + 1)
            (sql_max 0 (Member.karma m - MISTAKE_PENALTY K)%Q).

(** The member update of an accepted word. *)
Definition reward (delta : Q) (m : Member.t) : Member.t :=
  Member.mk (Member.score m + 1) (Member.correct m + 1) (Member.wrong m)
            (sql_max 0 (Member.karma m + delta)%Q).

(** [handle_mistake], after the [events] that led to it. *)
Definition handle_mistake (self : t) (msg : message) (response : notice)
    (events : list event) : result :=
  let config :=
    match failed_role self with
    | Some _ =>
        Config.set_failed_member (_config self) (Some (author_id msg))
          (Config.correct_inputs_by_failed_member (_config self))
    | None => _config self
    end in
  let config := Config.reset config in
  let db := SQL_ENGINE self in
  let db := set_member db
              (alter penalize (guild_id msg, author_id msg) (member db)) in
  mk_result (set_SQL_ENGINE (set_config self config) db)
    (events ++ [HandleMistake; ChannelSend response;
                AddReaction EMOJI_CROSS; ScheduleBusyWork])%list
    Mistake.

(** The end of [on_message]: "Everything is fine". *)
Definition accept (self : t) (msg : message) (word : string)
    (events : list event) : result :=
  let author := author_id msg in
  let guild := guild_id msg in
  let current_count := Config.current_count (_config self) + 1 in
  let config := Config.update_current (_config self) author word in
  let emoji_and_config := Config.reaction_emoji config in
  let config := emoji_and_config.2 in
  let reaction :=
    default emoji_and_config.1 (SPECIAL_REACTION_EMOJIS K !! word) in
  let last_words := default [] (_history self !! author) in
  let karma := calculate_total_karma word last_words in
  let history :=
    <[author := deque_append (HISTORY_LENGTH K) last_words word]>
      (_history self) in
  let db := SQL_ENGINE self in
  let db := set_member db (alter (reward karma) (guild, author) (member db)) in
  let db := set_used_words db ({[(guild, word)]} ∪ used_words db) in
  let cached_words :=
    match _cached_words self with
    | None => {[word]}
    | Some words => {[word]} ∪ words
    end in
  let milestone :=
    if (0 <? current_count) && (current_count mod 100 =? 0)
    then [ChannelSend (NoticeMilestone current_count)] else [] in
  let config :=
    if bool_decide (is_Some (failed_role self))
       && opt_int_eqb (Config.failed_member_id config) author
    then
      let inputs := Config.correct_inputs_by_failed_member config + 1 in
      if 30 <=? inputs
      then Config.set_failed_member config None 0
      else Config.set_failed_member config (Config.failed_member_id config) inputs
    else config in
  mk_result
    (set_cached_words
       (set_SQL_ENGINE (set_history (set_config self config) history) db)
       (Some cached_words))
    (events ++ [AddReaction reaction] ++ milestone ++ [ScheduleBusyWork])%list
    Accepted.

(** The row of a player seen for the first time is created before the
    word is looked at. *)
Definition add_user (guild author : Z) (members : gmap (Z * Z) Member.t)
    : gmap (Z * Z) Member.t :=
  match members !! (guild, author) with
  | Some _ => members
  | None => <[(guild, author) := Member.new]> members
  end.

(** [on_message], up to the point where it awaits [schedule_busy_work].
    [future] is what the Wiktionary query delivers if it is started and
    later resolved. *)
Definition on_message (self : t) (msg : message) (future : http_result)
    : result :=
  if author_is_self msg then mk_result self [] Ignored
  else if negb (opt_int_eqb (Config.channel_id (_config self)) (channel_id msg))
  then mk_result self [] Ignored
  else
  let word := lower (content msg) in
  if negb (all_chars_in (POSSIBLE_CHARACTERS K) word)
  then mk_result self [] Ignored
  else if Nat.eqb (String.length word) 0 then mk_result self [] Ignored
  else if Nat.eqb (String.length word) 1
  then mk_result self
         [AddReaction EMOJI_WARNING; ChannelSend NoticeSingleLetter]
         SingleLetter
  else
  let author := author_id msg in
  let guild := guild_id msg in
  let self := set_busy self (_busy self + 1) in
  let self :=
    set_participating_users self
      (Some match _participating_users self with
            | None => {[author]}
            | Some users => {[author]} ∪ users
            end) in
  let self :=
    set_SQL_ENGINE self
      (set_member (SQL_ENGINE self)
         (add_user guild author (member (SQL_ENGINE self)))) in
  let connection := SQL_ENGINE self in
  let config := _config self in
  let word_whitelisted := is_word_whitelisted word guild connection in
  let events := [IsWordWhitelisted word] in
  let events :=
    (events ++ if word_whitelisted then [] else [IsWordBlacklisted word])%list in
  if negb word_whitelisted
     && is_word_blacklisted word (Some guild) (Some connection)
  then mk_result (set_busy self (_busy self - 1))
         (events ++ [AddReaction EMOJI_WARNING; ChannelSend NoticeBlacklisted])%list
         Blacklisted
  else
  let events :=
    (events ++ if word_whitelisted then [] else [IsWordInCache word])%list in
  let started := negb (word_whitelisted || is_word_in_cache word connection) in
  let events := (events ++ if started then [StartApiQuery word] else [])%list in
  let events := (events ++ [SelectUsedWord word])%list in
  if bool_decide ((guild, word) ∈ used_words connection)
  then mk_result (set_busy self (_busy self - 1))
         (events ++ [AddReaction EMOJI_WARNING; ChannelSend (NoticeRepeated word)])%list
         Repeated
  else if negb SINGLE_PLAYER
          && truthy_int (Config.current_member_id config)
          && opt_int_eqb (Config.current_member_id config) author
  then
    (* the response text reads [current_word[-1]] without a guard *)
    match Config.current_word config ≫= last_char with
    | None => mk_result self events Raised
    | Some _ => handle_mistake self msg NoticeWrongMember events
    end
  else if truthy_str (Config.current_word config)
          && negb (bool_decide
                     (first_char word = Config.current_word config ≫= last_char))
  then handle_mistake self msg NoticeWrongLetter events
  else if started then
    let result := get_query_response future in
    let events := (events ++ [GetQueryResponse result])%list in
    if result =? API_RESPONSE_WORD_DOESNT_EXIST
    then handle_mistake self msg NoticeDoesNotExist events
    else if result =? API_RESPONSE_ERROR
    then mk_result (set_busy self (_busy self - 1))
           (events ++ [AddReaction EMOJI_WARNING; ChannelSend NoticeBackendIssue])%list
           BackendFault
    else accept self msg word events
  else accept self msg word events.

(** The loop of [add_to_cache] over the pending words. *)
Fixpoint add_to_cache_loop (words : list string) (cache : gset string)
    : sql_error + gset string :=
  match words with
  | [] => inr cache
  | word :: words' =>
      if negb (is_word_blacklisted word None None)
      then
        match insert_or_ignore_word_cache [("words", word)] cache with
        | inl e => inl e
        | inr cache' => add_to_cache_loop words' cache'
        end
      else add_to_cache_loop words' cache
  end.

(** [add_to_cache]; an exception leaves the transaction uncommitted. *)
Definition add_to_cache (self : t) : t * option sql_error :=
  match _cached_words self with
  | None => (self, None)
  | Some words =>
      if decide (words = ∅) then (self, None)
      else
        let self := set_cached_words self None in
        match add_to_cache_loop (elements words) (word_cache (SQL_ENGINE self)) with
        | inl e => (self, Some e)
        | inr cache =>
            (set_SQL_ENGINE self (set_word_cache (SQL_ENGINE self) cache), None)
        end
  end.

(** A run of [on_message] over the submissions of a channel, in arrival
    order. *)
Fixpoint run (self : t) (inputs : list (message * http_result)) : t :=
  match inputs with
  | [] => self
  | (msg, future) :: inputs' => run (final (on_message self msg future)) inputs'
  end.

End WithConsts.

End Bot.

(** ** The karma scorer *)

Module karma_calcs.

Section Scorer.

(** The base table of the scorer, the decay per repeated ending letter and
    the length of the window of recent words. *)
Context (base_karma : string → Q) (decay_rate : Q) (window : nat).

(** Modelled from the spec: the module of [calculate_total_karma] ([data]
    for [main.py], [karma_calcs] for the tests) is not available.
    The number of "the last N submissions by the same player" that "ended
    in the same letter" as the word. *)
Definition same_ending (word : string) (last_words : list string) : nat :=
  List.length
    (List.filter (λ w, bool_decide (last_char w = last_char word))
       (drop (List.length last_words - window) last_words)).

(** Modelled from the spec: the module of [calculate_total_karma] ([data]
    for [main.py], [karma_calcs] for the tests) is not available.
    "If base score is negative, return it unmodified. If base score is
    non-negative, apply decay proportional to how many of the last N
    submissions by the same player ended in the same letter." *)
Definition calculate_total_karma (word : string) (last_words : list string) : Q :=
  let base := base_karma word in
  if Qle_bool 0 base
  then (base * (1 - decay_rate * inject_Z (Z.of_nat (same_ending word last_words))))%Q
  else base.

End Scorer.

End karma_calcs.

(** ** A game in progress *)

Module Game.

Definition K : consts := {|
  POSSIBLE_CHARACTERS := "abcdefghijklmnopqrstuvwxyz-";
  GLOBAL_BLACKLIST_2_LETTER_WORDS := {["xx"]};
  GLOBAL_BLACKLIST_N_LETTER_WORDS := ∅;
  GLOBAL_WHITELIST_3_LETTER_WORDS := {["cat"]};
  SPECIAL_REACTION_EMOJIS := ∅;
  MISTAKE_PENALTY := 5%Q;
  HISTORY_LENGTH := 5
|}.

(** A scorer that gives every word half a point. *)
Definition karma (word : string) (last_words : list string) : Q := (1 # 2)%Q.

(** The game runs in channel 7 of server 9; member 1 wrote "apple", the
    fourth word of the chain. Member 2 made the last mistake and has given
    29 correct words since; the failed role is role 3. *)
Definition config : Config.t := {|
  Config.channel_id := Some 7;
  Config.current_count := 4;
  Config.current_word := Some "apple";
  Config.high_score := 10;
  Config.current_member_id := Some 1;
  Config.put_high_score_emoji := false;
  Config.failed_role_id := Some 3;
  Config.reliable_role_id := None;
  Config.failed_member_id := Some 2;
  Config.correct_inputs_by_failed_member := 29
|}.

Definition db : Bot.database := {|
  Bot.member := {[ (9, 1) := Member.mk 4 4 0 2%Q ]};
  Bot.used_words := {[ (9, "apple") ]};
  Bot.word_cache := {[ "elephant" ]};
  Bot.blacklist := ∅;
  Bot.whitelist := {[ (9, "eqq") ]}
|}.

Definition bot : Bot.t := {|
  Bot._config := config;
  Bot._busy := 0;
  Bot._cached_words := None;
  Bot._participating_users := None;
  Bot._history := ∅;
  Bot.failed_role := Some 3;
  Bot.SQL_ENGINE := db
|}.

(** A message of [author] in the game channel. *)
Definition says (author : Z) (text : string) : message := {|
  author_is_self := false;
  author_id := author;
  channel_id := 7;
  guild_id := 9;
  content := text
|}.

Definition on_message := Bot.on_message K false karma.

(** The chain has just reached the high score of 10 for the first time. *)
Definition record_config : Config.t := {|
  Config.channel_id := Some 7;
  Config.current_count := 10;
  Config.current_word := Some "elephant";
  Config.high_score := 10;
  Config.current_member_id := Some 2;
  Config.put_high_score_emoji := false;
  Config.failed_role_id := Some 3;
  Config.reliable_role_id := None;
  Config.failed_member_id := None;
  Config.correct_inputs_by_failed_member := 0
|}.

(** A base table that dislikes the ending "y", with a decay of a fifth
    per repeated ending. *)
Definition base_karma (word : string) : Q :=
  if bool_decide (last_char word = Some "y"%char) then (-1)%Q else 1%Q.

Definition decay_rate : Q := (1 # 5)%Q.

End Game.

(** ** Vocabulary of the statements *)


(** The statistics of a player as the game holds them while a word is
    validated: the stored row, or the row that is created on the first
    submission. *)
Definition player_stats (db : Bot.database) (guild author : Z) : Member.t :=
  default Member.new (Bot.member db !! (guild, author)).

(** Every stored karma is at least zero. *)
Definition karma_floor (db : Bot.database) : Prop :=
  ∀ key m, Bot.member db !! key = Some m → (0 <= Member.karma m)%Q.

(** A message that is a submission of the game: written by somebody else,
    in the game channel, over the allowed alphabet. *)
Definition is_submission (K : consts) (self : Bot.t) (msg : message) : Prop :=
  author_is_self msg = false
  ∧ Config.channel_id (Bot._config self) = Some (channel_id msg)
  ∧ all_chars_in (POSSIBLE_CHARACTERS K) (lower (content msg)) = true.

(** The bot once a submission has entered the validation: the busy counter
    is raised, the author is noted as participating and has a member row. *)
Definition entered (self : Bot.t) (msg : message) : Bot.t :=
  let self := Bot.set_busy self (Bot._busy self + 1) in
  let self :=
    Bot.set_participating_users self
      (Some match Bot._participating_users self with
            | None => {[author_id msg]}
            | Some users => {[author_id msg]} ∪ users
            end) in
  Bot.set_SQL_ENGINE self
    (Bot.set_member (Bot.SQL_ENGINE self)
       (Bot.add_user (guild_id msg) (author_id msg)
          (Bot.member (Bot.SQL_ENGINE self)))).

(** "No need to schedule busy work as nothing has changed. Just decrement
    the variable." *)
Definition left (self : Bot.t) : Bot.t :=
  Bot.set_busy self (Bot._busy self - 1).

(** Events among which there is neither a call of [handle_mistake] nor a
    lookup resolved to an error. *)
Definition quiet (events : list event) : Prop :=
  (HandleMistake ∉ events)
  ∧ (GetQueryResponse Bot.API_RESPONSE_ERROR ∉ events).

(** The ways in which a run of [on_message] ends. *)
Inductive outcome (K : consts) (calculate_total_karma : string → list string → Q)
    (self : Bot.t) (msg : message) : Bot.result → Prop :=
| outcome_ignored :
    outcome K calculate_total_karma self msg (Bot.mk_result self [] Ignored)
| outcome_single_letter :
    outcome K calculate_total_karma self msg
      (Bot.mk_result self
         [AddReaction EMOJI_WARNING; ChannelSend NoticeSingleLetter] SingleLetter)
| outcome_blacklisted events :
    quiet events →
    ChannelSend NoticeBlacklisted ∈ events →
    outcome K calculate_total_karma self msg
      (Bot.mk_result (left (entered self msg)) events Blacklisted)
| outcome_repeated events :
    quiet events →
    ChannelSend (NoticeRepeated (lower (content msg))) ∈ events →
    outcome K calculate_total_karma self msg
      (Bot.mk_result (left (entered self msg)) events Repeated)
| outcome_raised events :
    quiet events →
    outcome K calculate_total_karma self msg
      (Bot.mk_result (entered self msg) events Raised)
| outcome_backend_fault events :
    HandleMistake ∉ events →
    ChannelSend NoticeBackendIssue ∈ events →
    outcome K calculate_total_karma self msg
      (Bot.mk_result (left (entered self msg)) events BackendFault)
| outcome_mistake response events :
    quiet events →
    outcome K calculate_total_karma self msg
      (Bot.handle_mistake K (entered self msg) msg response events)
| outcome_accepted events :
    quiet events →
    outcome K calculate_total_karma self msg
      (Bot.accept K calculate_total_karma (entered self msg) msg
         (lower (content msg)) events).

#[global] Arguments Bot.handle_mistake : simpl never.
#[global] Arguments Bot.accept : simpl never.

Ltac trace_facts :=
  repeat first
    [ rewrite elem_of_app | rewrite elem_of_cons | rewrite elem_of_nil ];
  unfold Bot.API_RESPONSE_ERROR, Bot.API_RESPONSE_WORD_DOESNT_EXIST in *;
  try (intros Hin;
       repeat match goal with
         | H : _ ∨ _ |- _ => destruct H
         | H : False |- _ => destruct H
         | H : GetQueryResponse _ = GetQueryResponse _ |- _ => injection H as H
         end;
       first [ discriminate | contradiction | lia | done ]);
  try tauto.

Ltac elem_of_trace :=
  repeat first
    [ rewrite elem_of_app | rewrite elem_of_cons | rewrite elem_of_nil ].

Ltac split_pipeline :=
  repeat match goal with
    | |- context [if ?b then _ else _] => destruct b eqn:?; simpl
    | |- context [match ?o ≫= last_char with _ => _ end] =>
        destruct (o ≫= last_char) eqn:?; simpl
    end.

(** ** Invariants of the game *)


(** The chain is not longer than the longest chain. *)
Definition count_within_high_score (c : Config.t) : Prop :=
  0 ≤ Config.current_count c ≤ Config.high_score c.

(** In every member row the score is the number of correct words minus
    the number of wrong words. *)
Definition books_balanced (db : Bot.database) : Prop :=
  ∀ key m, Bot.member db !! key = Some m →
    Member.score m = Member.correct m - Member.wrong m
    ∧ 0 ≤ Member.correct m ∧ 0 ≤ Member.wrong m.

(** No history of recent words is longer than [HISTORY_LENGTH]. *)
Definition history_bounded (K : consts) (self : Bot.t) : Prop :=
  ∀ author words, Bot._history self !! author = Some words →
    (List.length words ≤ HISTORY_LENGTH K)%nat.

(** Reduces the projections of the bot state built by [on_message]. *)
Ltac pipeline_state :=
  cbn [Bot.final Bot.trace Bot.exit Bot.SQL_ENGINE Bot._config Bot._busy Bot._cached_words
       Bot._participating_users Bot._history Bot.failed_role
       Bot.set_SQL_ENGINE Bot.set_config Bot.set_busy Bot.set_cached_words
       Bot.set_participating_users Bot.set_history
       Bot.set_member Bot.set_used_words Bot.set_word_cache
       Bot.member Bot.used_words Bot.word_cache Bot.blacklist Bot.whitelist].

Ltac bool_facts :=
  repeat match goal with
    | H : negb _ = true |- _ => apply negb_true_iff in H
    | H : negb _ = false |- _ => apply negb_false_iff in H
    | H : _ && _ = true |- _ => apply andb_true_iff in H; destruct H
    | H : _ || _ = false |- _ => apply orb_false_iff in H; destruct H
    | H : Nat.eqb _ _ = false |- _ => apply Nat.eqb_neq in H
    | H : Nat.eqb _ _ = true |- _ => apply Nat.eqb_eq in H
    | H : bool_decide _ = false |- _ => apply bool_decide_eq_false in H
    | H : bool_decide _ = true |- _ => apply bool_decide_eq_true in H
    | H : (_ =? _) = false |- _ => apply Z.eqb_neq in H
    | H : (_ =? _) = true |- _ => apply Z.eqb_eq in H
    end.


(** A member with karma has given a correct word. *)
Definition karma_is_earned (db : Bot.database) : Prop :=
  ∀ key m, Bot.member db !! key = Some m →
    (0 <= Member.karma m)%Q ∧ 0 ≤ Member.correct m ∧ 0 ≤ Member.wrong m
    ∧ (Member.correct m = 0 → (Member.karma m == 0)%Q).


(** ** [main.py]: the blacklist and whitelist commands *)

Definition set_blacklist (db : Bot.database) (b : gset (Z * string)) : Bot.database :=
  Bot.mk_database (Bot.member db) (Bot.used_words db) (Bot.word_cache db)
    b (Bot.whitelist db).

Definition set_whitelist (db : Bot.database) (w : gset (Z * string)) : Bot.database :=
  Bot.mk_database (Bot.member db) (Bot.used_words db) (Bot.word_cache db)
    (Bot.blacklist db) w.

(** The description of the embed that a list command sends. *)
Inductive list_reply :=
| NotALegalWord (word : string)
| AddedToList (word : string)
| RemovedFromList (word : string).

(** The words of the rows of one server, for the two [show] commands. *)
Definition words_of_server (guild : Z) (table : gset (Z * string)) : list string :=
  (List.filter (λ row : Z * string, bool_decide (row.1 = guild)) (elements table)).*2.

Module BlacklistCmdGroup.

Definition add (K : consts) (db : Bot.database) (guild : Z) (word : string)
    : Bot.database * list_reply :=
  if negb (all_chars_in (POSSIBLE_CHARACTERS K) (lower word))
  then (db, NotALegalWord (lower word))
  else (set_blacklist db ({[(guild, lower word)]} ∪ Bot.blacklist db),
        AddedToList (lower word)).

Definition remove (K : consts) (db : Bot.database) (guild : Z) (word : string)
    : Bot.database * list_reply :=
  if negb (all_chars_in (POSSIBLE_CHARACTERS K) (lower word))
  then (db, NotALegalWord (lower word))
  else (set_blacklist db (Bot.blacklist db ∖ {[(guild, lower word)]}),
        RemovedFromList (lower word)).

(** The words that [show] lists, numbered from 1 in the reply; the empty
    list is answered with "No word has been blacklisted in this server." *)
Definition show (db : Bot.database) (guild : Z) : list string :=
  words_of_server guild (Bot.blacklist db).

End BlacklistCmdGroup.

Module WhitelistCmdGroup.

Definition add (K : consts) (db : Bot.database) (guild : Z) (word : string)
    : Bot.database * list_reply :=
  if negb (all_chars_in (POSSIBLE_CHARACTERS K) (lower word))
  then (db, NotALegalWord (lower word))
  else (set_whitelist db ({[(guild, lower word)]} ∪ Bot.whitelist db),
        AddedToList (lower word)).

Definition remove (K : consts) (db : Bot.database) (guild : Z) (word : string)
    : Bot.database * list_reply :=
  if negb (all_chars_in (POSSIBLE_CHARACTERS K) (lower word))
  then (db, NotALegalWord (lower word))
  else (set_whitelist db (Bot.whitelist db ∖ {[(guild, lower word)]}),
        RemovedFromList (lower word)).

Definition show (db : Bot.database) (guild : Z) : list string :=
  words_of_server guild (Bot.whitelist db).

End WhitelistCmdGroup.

(** ** [main.py]: the command [check_word] *)

(** The description of the embed of [check_word]. *)
Inductive verdict :=
| NotALegalWordVerdict
| NotAValidWord
| ValidWord
| BlacklistedWord
| FetchIssue.

Inductive python_error :=
| NameError (name : string)
| SQLAlchemyError (e : sql_error).

Record check_word_result := mk_check_word_result {
  description : verdict;
  (** whether [interaction.followup.send] was reached *)
  replied : bool;
  raised : option python_error;
  bot_after : Bot.t
}.

(** [check_word]. The three verdicts found inside the transaction are
    sent and followed by [conn.close()], a name that [main.py] does not
    define. *)
Definition check_word (K : consts) (self : Bot.t) (guild : Z) (word : string)
    (future : http_result) : check_word_result :=
  if negb (all_chars_in (POSSIBLE_CHARACTERS K) (lower word))
  then mk_check_word_result NotALegalWordVerdict true None self
  else if Nat.eqb (String.length word) 1
  then mk_check_word_result NotAValidWord true None self
  else
  let word := lower word in
  let connection := Bot.SQL_ENGINE self in
  if Bot.is_word_whitelisted word guild connection
  then mk_check_word_result ValidWord true (Some (NameError "conn")) self
  else if Bot.is_word_blacklisted K word (Some guild) (Some connection)
  then mk_check_word_result BlacklistedWord true (Some (NameError "conn")) self
  else if Bot.is_word_in_cache word connection
  then mk_check_word_result ValidWord true (Some (NameError "conn")) self
  else
  let result := Bot.get_query_response future in
  if result =? Bot.API_RESPONSE_WORD_EXISTS then
    let pending :=
      match Bot._cached_words self with
      | None => {[word]}
      | Some words => {[word]} ∪ words
      end in
    let flushed := Bot.add_to_cache K (Bot.set_cached_words self (Some pending)) in
    match flushed.2 with
    | Some e => mk_check_word_result ValidWord false (Some (SQLAlchemyError e)) flushed.1
    | None => mk_check_word_result ValidWord true None flushed.1
    end
  else if result =? Bot.API_RESPONSE_WORD_DOESNT_EXIST
  then mk_check_word_result NotAValidWord true None self
  else mk_check_word_result FetchIssue true None self.

(** ** [main.py]: the commands [stats user] and [prune] *)

(** What [stats user] answers; [UserZeroDivisionError] is the exception of
    [correct / (correct + wrong)] in the description of the embed. *)
Inductive user_stats_reply :=
| NeverPlayed
| UserStats (score : Z) (pos_by_score : nat) (karma : Q) (pos_by_karma : nat)
    (correct wrong : Z) (accuracy : Q)
| UserZeroDivisionError.

(** [select count(member_id) where server_id = guild and p(row)]. *)
Definition count_members (guild : Z) (p : Member.t → bool)
    (members : gmap (Z * Z) Member.t) : nat :=
  List.length
    (List.filter (λ row : Z * Z * Member.t, bool_decide (row.1.1 = guild) && p row.2)
       (map_to_list members)).

Module StatsCmdGroup.

Definition user (db : Bot.database) (guild member_id : Z) : user_stats_reply :=
  match Bot.member db !! (guild, member_id) with
  | None => NeverPlayed
  | Some db_member =>
      let pos_by_score :=
        count_members guild (λ m, Member.score db_member <=? Member.score m)
          (Bot.member db) in
      let pos_by_karma :=
        count_members guild (λ m, Qle_bool (Member.karma db_member) (Member.karma m))
          (Bot.member db) in
      if Member.correct db_member + Member.wrong db_member =? 0
      then UserZeroDivisionError
      else UserStats (Member.score db_member) pos_by_score
             (Member.karma db_member) pos_by_karma
             (Member.correct db_member) (Member.wrong db_member)
             (inject_Z (Member.correct db_member)
              / inject_Z (Member.correct db_member + Member.wrong db_member))%Q
  end.

End StatsCmdGroup.

Inductive prune_reply :=
| RemovedDataFor (count : nat)
| NoUsersMetTheCriteria
| NoUsersFound.

(** The member ids of the rows of a server, [data] in [prune]. *)
Definition member_ids (guild : Z) (members : gmap (Z * Z) Member.t) : list Z :=
  (List.filter (λ row : Z * Z * Member.t, bool_decide (row.1.1 = guild))
     (map_to_list members)).*1.*2.

(** The loop of [prune]: the rows of the users that the guild no longer
    has are deleted and counted. *)
Fixpoint prune_loop (guild : Z) (get_member : Z → bool) (data : list Z)
    (members : gmap (Z * Z) Member.t) (count : nat)
    : gmap (Z * Z) Member.t * nat :=
  match data with
  | [] => (members, count)
  | user_id :: data' =>
      if get_member user_id
      then prune_loop guild get_member data' members count
      else prune_loop guild get_member data'
             (delete (guild, user_id) members) (S count)
  end.

(** [prune]; [get_member user_id] tells whether
    [interaction.guild.get_member(user_id)] finds the user. *)
Definition prune (db : Bot.database) (guild : Z) (get_member : Z → bool)
    : Bot.database * prune_reply :=
  match member_ids guild (Bot.member db) with
  | [] => (db, NoUsersFound)
  | data =>
      let pruned := prune_loop guild get_member data (Bot.member db) 0 in
      if (0 <? pruned.2)%nat
      then (Bot.set_member db pruned.1, RemovedDataFor pruned.2)
      else (db, NoUsersMetTheCriteria)
  end.

(** ** [main.py]: the command [leaderboard] *)

(** What is written to [emb.description]: the warning, or one line per
    user, [f'{i}. {user.mention} **{score_or_karma}**'], kept as its
    three values. *)
Inductive leaderboard_line {V : Type} :=
| NoUsersHavePlayed
| Entry (i : nat) (member_id : Z) (score_or_karma : V).
Arguments leaderboard_line : clear implicits.

Definition inspect {A : Type} (a : A) : {b : A | a = b} := exist _ a eq_refl.

(** [enumerate(data, start)]. *)
Fixpoint enumerate {A : Type} (start : nat) (data : list A) : list (nat * A) :=
  match data with
  | [] => []
  | x :: data' => (start, x) :: enumerate (S start) data'
  end.

(** The rows that the lines of a description show. *)
Definition line_rows {V : Type} (description : list (leaderboard_line V)) : list (Z * V) :=
  omap (λ line, match line with
                | NoUsersHavePlayed => None
                | Entry _ member_id score_or_karma => Some (member_id, score_or_karma)
                end) description.

Section Leaderboard.

(** The value of the metric of the board, [score] or [karma]. *)
Context {V : Type}.

(** [ranking] is the rows [(member_id, score_or_karma)] of the server in
    the order of [order_by(... .desc())], the same for every query of one
    command; [available member_id] tells whether
    [interaction.guild.fetch_member(member_id)] finds the user
    ([discord.NotFound] otherwise). *)
Context (ranking : list (Z * V)) (available : Z → bool).

(** [select ... order_by(...).limit(limit).offset(offset)]. *)
Definition select_ranked (limit offset : nat) : list (Z * V) :=
  take limit (drop offset ranking).

(** The loop over [enumerate(data, 1)]: a line for every user that is
    found, a count of those that are not. *)
Fixpoint add_users (data : list (nat * (Z * V)))
    (description : list (leaderboard_line V)) (unavailable_users : nat)
    : list (leaderboard_line V) * nat :=
  match data with
  | [] => (description, unavailable_users)
  | (i, (member_id, score_or_karma)) :: data' =>
      if available member_id
      then add_users data' (description ++ [Entry i member_id score_or_karma])
             unavailable_users
      else add_users data' description (S unavailable_users)
  end.

Lemma select_ranked_progress (offset limit : nat) (row : Z * V) (rows : list (Z * V)) :
  select_ranked limit offset = row :: rows →
  (List.length ranking - (offset + limit) < List.length ranking - offset)%nat.
Proof.
  unfold select_ranked. intros Hdata.
  assert (limit ≠ 0)%nat by (intros ->; done).
  assert (offset < List.length ranking)%nat.
  { destruct (Nat.lt_ge_cases offset (List.length ranking)) as [|Hge]; [done|].
    rewrite drop_ge in Hdata by done. by destruct limit. }
  lia.
Qed.

(** [fill_with_users(offset, limit)], with [emb.description] passed
    through. It calls itself with a larger offset as long as rows are left
    and users were missing. *)
Equations fill_with_users (offset limit : nat) (description : list (leaderboard_line V))
  : list (leaderboard_line V) by wf (List.length ranking - offset)%nat lt :=
fill_with_users offset limit description with inspect (select_ranked limit offset) := {
  | exist _ nil _ =>
      if (offset =? 0)%nat && (limit =? 10)%nat then [NoUsersHavePlayed]
      else description;
  | exist _ (cons row rows) Hdata
      with inspect (add_users (enumerate 1 (row :: rows)) description 0) := {
      | exist _ (description', unavailable_users) _ =>
          if (0 <? unavailable_users)%nat
          then fill_with_users (offset + limit) unavailable_users description'
          else description' } }.
Next Obligation.
  intros offset limit row rows Hdata **. by eapply select_ranked_progress.
Qed.

(** The lines of the users of [data] that are found, numbered from
    [start], and the number of those that are not. *)
Definition found (start : nat) (data : list (Z * V)) : list (leaderboard_line V) :=
  (λ e : nat * (Z * V), Entry e.1 e.2.1 e.2.2)
    <$> List.filter (λ e : nat * (Z * V), available e.2.1) (enumerate start data).

Definition missing (data : list (Z * V)) : nat :=
  List.length (List.filter (λ row : Z * V, negb (available row.1)) data).

(** The command: [emb.description] starts empty and
    [await fill_with_users()] takes the defaults. *)
Definition leaderboard : list (leaderboard_line V) :=
  fill_with_users 0 10 [].

End Leaderboard.

(** ** [main.py]: the configuration file and the command [set_channel] *)

(** The file [Bot.CONFIG_FILE] is [None] when it does not exist, and
    otherwise holds the attributes that [dump_data] wrote; [json.dump]
    and [Config(...)] on [json.load] carry integers, strings, booleans
    and [None] through unchanged. A file with other content is not
    modelled. *)
Module ConfigFile.

(** [Config.read]: the configuration and the file afterwards; a missing
    file is created with the defaults. *)
Definition read (file : option Config.t) : Config.t * option Config.t :=
  match file with
  | Some _config => (_config, file)
  | None => (Config.default, Some Config.default)
  end.

Definition dump_data (self : Config.t) : option Config.t := Some self.

Definition set_channel_id (self : Config.t) (v : option Z) : Config.t :=
  Config.mk v (Config.current_count self) (Config.current_word self)
    (Config.high_score self) (Config.current_member_id self)
    (Config.put_high_score_emoji self)
    (Config.failed_role_id self) (Config.reliable_role_id self)
    (Config.failed_member_id self) (Config.correct_inputs_by_failed_member self).

(** [Bot.read_config]. *)
Definition read_config (self : Bot.t) (file : option Config.t)
    : Bot.t * option Config.t :=
  (Bot.set_config self (read file).1, (read file).2).

End ConfigFile.

Inductive set_channel_reply :=
| NoPermission
| ChannelWasSet (channel : Z).

(** [set_channel]; [ban_members] is
    [interaction.user.guild_permissions.ban_members]. *)
Definition set_channel (ban_members : bool) (channel : Z) (self : Bot.t)
    (file : option Config.t) : Bot.t * option Config.t * set_channel_reply :=
  if negb ban_members then (self, file, NoPermission)
  else
    let config := ConfigFile.set_channel_id (ConfigFile.read file).1 (Some channel) in
    let file' := ConfigFile.dump_data config in
    let r := ConfigFile.read_config self file' in
    (r.1, r.2, ChannelWasSet channel).

(** ** More of the example game *)

Module Play.

(** The answer of the dictionary that confirms "eagle". *)
Definition eagle_exists : http_result :=
  HttpResponse 200 (Some (JArray [JString "eagle"; JArray [JString "Eagle"]])).

(** Three rows: members 1 and 2 of server 9, and member 2 on server 8.
    Member 2 has a mistake and no correct word on server 9. *)
Definition crowd : Bot.database :=
  Bot.set_member Game.db
    {[ (9, 1) := Member.mk 4 4 0 2%Q;
       (9, 2) := Member.mk (-1) 0 1 0%Q;
       (8, 2) := Member.mk 1 1 0 (1 # 2)%Q ]}.

(** Twelve ranked rows, member [n] with a score of [13 - n]; member 1
    has left the server. *)
Definition ranking : list (Z * Z) :=
  [(1, 12); (2, 11); (3, 10); (4, 9); (5, 8); (6, 7);
   (7, 6); (8, 5); (9, 4); (10, 3); (11, 2); (12, 1)].

Definition in_server (member_id : Z) : bool := negb (member_id =? 1).

End Play.

(** * Properties *)

(** ** The reaction policy *)

Lemma special_emojis_get_not_high_score count default :
  default ≠ EMOJI_HIGH_SCORE →
  special_emojis_get count default ≠ EMOJI_HIGH_SCORE.
Proof.
  intros Hd. unfold special_emojis_get.
  repeat case_match; try done; discriminate.
Qed.

Lemma special_emojis_get_generic count default :
  count ≠ 100 → count ≠ 69 → count ≠ 666 →
  special_emojis_get count default = default.
Proof.
  intros H1 H2 H3. unfold special_emojis_get.
  repeat case_match; try done; lia.
Qed.

(** The policy of [Config.reaction_emoji], case by case. *)
Lemma Config_reaction_emoji_cases (c : Config.t) :
  let count := Config.current_count c in
  let r := Config.reaction_emoji c in
  (count = Config.high_score c ∧ Config.put_high_score_emoji c = false →
     r.1 = EMOJI_HIGH_SCORE ∧ r.2 = Config.set_put_high_score_emoji c true)
  ∧ (¬ (count = Config.high_score c ∧ Config.put_high_score_emoji c = false) →
     r.2 = c
     ∧ (count = 100 → r.1 = EMOJI_100)
     ∧ (count = 69 → r.1 = EMOJI_69)
     ∧ (count = 666 → r.1 = EMOJI_666)
     ∧ (count ≠ 100 → count ≠ 69 → count ≠ 666 → r.1 = EMOJI_CHECK)).
Proof.
  cbv zeta. unfold Config.reaction_emoji.
  destruct (Z.eqb_spec (Config.current_count c) (Config.high_score c)) as [He|Hne];
    destruct (Config.put_high_score_emoji c) eqn:Hf; simpl.
  all: split; [ intros [? ?]; try done | intros Hn ].
  all: try (exfalso; apply Hn; by split).
  all: split; [done|].
  all: repeat split; intros; subst;
    try (by rewrite special_emojis_get_generic);
    unfold special_emojis_get;
    repeat match goal with H : Config.current_count _ = _ |- _ => rewrite H end;
    done.
Qed.

(** The policy of [ServerConfig.reaction_emoji], case by case. *)
Lemma ServerConfig_reaction_emoji_cases (c : ServerConfig.t) :
  let count := ServerConfig.current_count c in
  let r := ServerConfig.reaction_emoji c in
  (count = ServerConfig.high_score c ∧ ServerConfig.used_high_score_emoji c = false →
     r.1 = EMOJI_HIGH_SCORE ∧ r.2 = ServerConfig.set_used_high_score_emoji c true)
  ∧ (¬ (count = ServerConfig.high_score c ∧ ServerConfig.used_high_score_emoji c = false) →
     r.2 = c
     ∧ (count = 100 → r.1 = EMOJI_100)
     ∧ (count = 69 → r.1 = EMOJI_69)
     ∧ (count = 666 → r.1 = EMOJI_666)
     ∧ (count ≠ 100 → count ≠ 69 → count ≠ 666 →
        r.1 = if decide (count = ServerConfig.high_score c)
              then EMOJI_BALLOT_CHECK else EMOJI_CHECK)).
Proof.
  cbv zeta. unfold ServerConfig.reaction_emoji.
  destruct (Z.eqb_spec (ServerConfig.current_count c) (ServerConfig.high_score c)) as [He|Hne];
    destruct (ServerConfig.used_high_score_emoji c) eqn:Hf; simpl.
  all: split; [ intros [? ?]; try done | intros Hn ].
  all: try (exfalso; apply Hn; by split).
  all: split; [done|].
  all: repeat split; intros; subst;
    try (case_decide; try done; by rewrite special_emojis_get_generic);
    unfold special_emojis_get;
    repeat match goal with H : ServerConfig.current_count _ = _ |- _ => rewrite H end;
    done.
Qed.

(** Once the flag is set, no later word of the streak gets the high-score
    emoji: the flag survives [update_current] and suppresses the emoji. *)
Lemma Config_high_score_emoji_suppressed (c : Config.t) member_id word :
  Config.put_high_score_emoji c = true →
  let r := Config.reaction_emoji (Config.update_current c member_id word) in
  r.1 ≠ EMOJI_HIGH_SCORE ∧ Config.put_high_score_emoji r.2 = true.
Proof.
  intros Hf. cbv zeta. unfold Config.reaction_emoji. simpl. rewrite Hf.
  rewrite andb_false_r. simpl. split; [|done].
  apply special_emojis_get_not_high_score. discriminate.
Qed.

Lemma ServerConfig_high_score_emoji_suppressed (c : ServerConfig.t) member_id word :
  ServerConfig.used_high_score_emoji c = true →
  let r := ServerConfig.reaction_emoji (ServerConfig.update_current c member_id word) in
  r.1 ≠ EMOJI_HIGH_SCORE ∧ ServerConfig.used_high_score_emoji r.2 = true.
Proof.
  intros Hf. cbv zeta. unfold ServerConfig.reaction_emoji. simpl. rewrite Hf.
  simpl. case_match; (split; [|done]);
    apply special_emojis_get_not_high_score; discriminate.
Qed.

(** C9. For every accepted word the reaction of [reaction_emoji] is the
    high-score emoji exactly when the new count equals the high score and
    the flag [put_high_score_emoji] ([used_high_score_emoji] in
    [ServerConfig]) is not set, and the flag is set by that call, so that
    the following words of the streak do not get it again; otherwise the
    counts 100, 69 and 666 get their fixed emoji and every other count a
    generic check mark. *)
Theorem reaction_emoji_policy :
  (∀ c : Config.t,
     let count := Config.current_count c in
     let r := Config.reaction_emoji c in
     (count = Config.high_score c ∧ Config.put_high_score_emoji c = false →
        r.1 = EMOJI_HIGH_SCORE ∧ r.2 = Config.set_put_high_score_emoji c true)
     ∧ (¬ (count = Config.high_score c ∧ Config.put_high_score_emoji c = false) →
        r.2 = c
        ∧ (count = 100 → r.1 = EMOJI_100)
        ∧ (count = 69 → r.1 = EMOJI_69)
        ∧ (count = 666 → r.1 = EMOJI_666)
        ∧ (count ≠ 100 → count ≠ 69 → count ≠ 666 → r.1 = EMOJI_CHECK))
     ∧ (∀ member_id word,
          let r' := Config.reaction_emoji (Config.update_current r.2 member_id word) in
          Config.put_high_score_emoji r.2 = true →
          r'.1 ≠ EMOJI_HIGH_SCORE ∧ Config.put_high_score_emoji r'.2 = true))
  ∧ (∀ c : ServerConfig.t,
     let count := ServerConfig.current_count c in
     let r := ServerConfig.reaction_emoji c in
     (count = ServerConfig.high_score c ∧ ServerConfig.used_high_score_emoji c = false →
        r.1 = EMOJI_HIGH_SCORE ∧ r.2 = ServerConfig.set_used_high_score_emoji c true)
     ∧ (¬ (count = ServerConfig.high_score c ∧ ServerConfig.used_high_score_emoji c = false) →
        r.2 = c
        ∧ (count = 100 → r.1 = EMOJI_100)
        ∧ (count = 69 → r.1 = EMOJI_69)
        ∧ (count = 666 → r.1 = EMOJI_666)
        ∧ (count ≠ 100 → count ≠ 69 → count ≠ 666 →
           r.1 = if decide (count = ServerConfig.high_score c)
                 then EMOJI_BALLOT_CHECK else EMOJI_CHECK))
     ∧ (∀ member_id word,
          let r' := ServerConfig.reaction_emoji
                      (ServerConfig.update_current r.2 member_id word) in
          ServerConfig.used_high_score_emoji r.2 = true →
          r'.1 ≠ EMOJI_HIGH_SCORE ∧ ServerConfig.used_high_score_emoji r'.2 = true)).
Proof.
  split; intros c; cbv zeta.
  - destruct (Config_reaction_emoji_cases c) as [H1 H2].
    split; [exact H1|]. split; [exact H2|].
    intros member_id word. apply Config_high_score_emoji_suppressed.
  - destruct (ServerConfig_reaction_emoji_cases c) as [H1 H2].
    split; [exact H1|]. split; [exact H2|].
    intros member_id word. apply ServerConfig_high_score_emoji_suppressed.
Qed.

(** ** The validation pipeline *)


Lemma add_user_lookup_author (guild author : Z) (members : gmap (Z * Z) Member.t) :
  Bot.add_user guild author members !! (guild, author)
  = Some (default Member.new (members !! (guild, author))).
Proof.
  unfold Bot.add_user.
  destruct (members !! (guild, author)) eqn:Hrow; simpl; [done|].
  by rewrite lookup_insert_eq.
Qed.

Lemma add_user_lookup_other (guild author : Z) (members : gmap (Z * Z) Member.t)
    (key : Z * Z) :
  key ≠ (guild, author) →
  Bot.add_user guild author members !! key = members !! key.
Proof.
  intros Hne. unfold Bot.add_user.
  destruct (members !! (guild, author)); [done|].
  by rewrite lookup_insert_ne.
Qed.


Lemma sql_max_floor (x : Q) : (0 <= sql_max 0 x)%Q.
Proof.
  unfold sql_max. destruct (Qle_bool 0 x) eqn:Hle.
  - by apply Qle_bool_iff.
  - apply Qle_refl.
Qed.

Lemma karma_floor_add_user (db : Bot.database) (guild author : Z) :
  karma_floor db →
  karma_floor (Bot.set_member db (Bot.add_user guild author (Bot.member db))).
Proof.
  intros Hfloor key m. simpl. unfold Bot.add_user.
  destruct (Bot.member db !! (guild, author)) eqn:Hrow; [apply Hfloor|].
  destruct (decide (key = (guild, author))) as [->|Hne].
  - rewrite lookup_insert_eq. intros [= <-]. simpl. apply Qle_refl.
  - rewrite lookup_insert_ne by done. apply Hfloor.
Qed.

Lemma karma_floor_alter (db : Bot.database) (f : Member.t → Member.t)
    (key : Z * Z) :
  (∀ m, (0 <= Member.karma (f m))%Q) →
  karma_floor db →
  karma_floor (Bot.set_member db (alter f key (Bot.member db))).
Proof.
  intros Hf Hfloor key' m. simpl.
  destruct (decide (key = key')) as [->|Hne].
  - rewrite lookup_alter_eq.
    destruct (Bot.member db !! key') eqn:Hrow; simpl; [|done].
    intros [= <-]. apply Hf.
  - rewrite lookup_alter_ne by done. apply Hfloor.
Qed.

Section Pipeline.

Context (K : consts) (SINGLE_PLAYER : bool).
Context (calculate_total_karma : string → list string → Q).

Abbreviation on_message := (Bot.on_message K SINGLE_PLAYER calculate_total_karma).
Abbreviation run := (Bot.run K SINGLE_PLAYER calculate_total_karma).

(** C8. A submission of exactly one character is answered with the
    warning reaction and the single-letter notice; [handle_mistake] is
    not called and the whole state of the bot, with the chain count,
    the current word, the current member and every member row, is
    unchanged. *)
Theorem single_letter_is_soft_rejection (self : Bot.t) (msg : message)
    (future : http_result) :
  is_submission K self msg →
  String.length (lower (content msg)) = 1%nat →
  let r := on_message self msg future in
  Bot.exit r = SingleLetter
  ∧ Bot.trace r = [AddReaction EMOJI_WARNING; ChannelSend NoticeSingleLetter]
  ∧ (HandleMistake ∉ Bot.trace r)
  ∧ Bot.final r = self.
Proof.
  intros (Hself & Hchan & Hchars) Hlen. cbv zeta.
  unfold Bot.on_message.
  rewrite Hself, Hchan, Hchars, Hlen. simpl. rewrite Z.eqb_refl. simpl.
  repeat split. elem_of_trace. intros [H|[H|[]]]; discriminate.
Qed.


(** Every run of [on_message] ends in one of the ways of [outcome]. *)
Lemma on_message_outcome (self : Bot.t) (msg : message) (future : http_result) :
  outcome K calculate_total_karma self msg (on_message self msg future).
Proof.
  unfold Bot.on_message.
  split_pipeline;
    repeat match goal with
      | H : (_ =? _) = true |- _ => apply Z.eqb_eq in H
      | H : (_ =? _) = false |- _ => apply Z.eqb_neq in H
      end.
  all: first
    [ apply outcome_ignored
    | apply outcome_single_letter
    | apply outcome_blacklisted; [split|]
    | apply outcome_repeated; [split|]
    | apply outcome_raised; split
    | apply outcome_backend_fault
    | apply outcome_mistake; split
    | apply outcome_accepted; split ].
  all: trace_facts.
Qed.

Lemma handle_mistake_trace (s : Bot.t) (msg : message) (response : notice)
    (events : list event) :
  Bot.trace (Bot.handle_mistake K s msg response events)
  = (events ++ [HandleMistake; ChannelSend response;
                AddReaction EMOJI_CROSS; ScheduleBusyWork])%list.
Proof. reflexivity. Qed.

Lemma handle_mistake_exit (s : Bot.t) (msg : message) (response : notice)
    (events : list event) :
  Bot.exit (Bot.handle_mistake K s msg response events) = Mistake.
Proof. reflexivity. Qed.

Lemma accept_exit (s : Bot.t) (msg : message) (word : string)
    (events : list event) :
  Bot.exit (Bot.accept K calculate_total_karma s msg word events) = Accepted.
Proof. reflexivity. Qed.


(** A timeout, a failed request, a status code from 400 on and a payload
    that is not JSON are all resolved to [API_RESPONSE_ERROR]. *)
Lemma get_query_response_faults (status_code : Z) (body : option json) :
  Bot.get_query_response HttpTimeout = Bot.API_RESPONSE_ERROR
  ∧ Bot.get_query_response HttpFailure = Bot.API_RESPONSE_ERROR
  ∧ (400 ≤ status_code →
     Bot.get_query_response (HttpResponse status_code body) = Bot.API_RESPONSE_ERROR)
  ∧ Bot.get_query_response (HttpResponse status_code None) = Bot.API_RESPONSE_ERROR.
Proof.
  repeat split; simpl; try done.
  - intros Hge. by rewrite (proj2 (Z.leb_le _ _) Hge).
  - by case_match.
Qed.


Lemma handle_mistake_config (s : Bot.t) (msg : message) (response : notice)
    (events : list event) :
  let c := Bot._config s in
  let c' := Bot._config (Bot.final (Bot.handle_mistake K s msg response events)) in
  Config.current_count c' = 0
  ∧ Config.current_word c' = Config.current_word c
  ∧ Config.current_member_id c' = Config.current_member_id c.
Proof.
  cbv zeta. unfold Bot.handle_mistake. simpl.
  by destruct (Bot.failed_role s).
Qed.

(** C3, as the code has it. A mistake (wrong member, wrong starting
    letter, word that does not exist) sets the chain count to zero and
    keeps the current word and the current member; a soft rejection
    (single letter, blacklisted, already used) leaves the count, the
    current word and the current member as they were. *)
Theorem mistake_resets_soft_rejection_keeps (self : Bot.t) (msg : message)
    (future : http_result) :
  let r := on_message self msg future in
  let c := Bot._config self in
  let c' := Bot._config (Bot.final r) in
  (Bot.exit r = Mistake →
     HandleMistake ∈ Bot.trace r
     ∧ Config.current_count c' = 0
     ∧ Config.current_word c' = Config.current_word c
     ∧ Config.current_member_id c' = Config.current_member_id c)
  ∧ (Bot.exit r = SingleLetter ∨ Bot.exit r = Blacklisted ∨ Bot.exit r = Repeated →
     (HandleMistake ∉ Bot.trace r)
     ∧ Config.current_count c' = Config.current_count c
     ∧ Config.current_word c' = Config.current_word c
     ∧ Config.current_member_id c' = Config.current_member_id c).
Proof.
  cbv zeta.
  destruct (on_message_outcome self msg future) as
    [ | | ev [Hm He] _ | ev [Hm He] _ | ev [Hm He] | ev Hm _
      | response ev [Hm He] | ev Hq ].
  - simpl. split; [ intros ?; discriminate | intros [?|[?|?]]; discriminate ].
  - simpl. split; [ intros ?; discriminate | intros _ ].
    repeat split. trace_facts.
  - simpl. split; [ intros ?; discriminate | intros _ ]. by repeat split.
  - simpl. split; [ intros ?; discriminate | intros _ ]. by repeat split.
  - simpl. split; [ intros ?; discriminate | intros [?|[?|?]]; discriminate ].
  - simpl. split; [ intros ?; discriminate | intros [?|[?|?]]; discriminate ].
  - rewrite handle_mistake_exit, handle_mistake_trace. split.
    + intros _. split; [ trace_facts |].
      apply (handle_mistake_config (entered self msg)).
    + intros [?|[?|?]]; discriminate.
  - rewrite accept_exit.
    split; [ intros ?; discriminate | intros [?|[?|?]]; discriminate ].
Qed.

Lemma three_letter_blacklisted (word : string) (server_id : option Z)
    (connection : option Bot.database) :
  String.length word = 3%nat →
  word ∉ GLOBAL_WHITELIST_3_LETTER_WORDS K →
  Bot.is_word_blacklisted K word server_id connection = true.
Proof.
  intros Hlen Hnot. unfold Bot.is_word_blacklisted.
  rewrite Hlen. simpl. rewrite (bool_decide_eq_false_2 _ Hnot). simpl.
  by case_match.
Qed.

Lemma is_word_blacklisted_global_only (word : string) (server_id : option Z)
    (connection : option Bot.database) :
  server_id = None ∨ connection = None →
  Bot.is_word_blacklisted K word server_id connection
  = Bot.globally_blacklisted K word.
Proof.
  unfold Bot.is_word_blacklisted, Bot.globally_blacklisted.
  intros [-> | ->]; repeat case_match; simpl; done.
Qed.

(** C7, as the code has it. A word of three characters that is not in
    the global three-letter whitelist is blacklisted for
    [is_word_blacklisted], whatever the server; submitted in play and not
    whitelisted for the server, it is answered with the blacklist notice,
    [handle_mistake] is not called and the configuration (with the chain
    count) is unchanged; and without a server or without a connection,
    [is_word_blacklisted] is decided by the global lists alone. *)
Theorem three_letter_closed_list (word : string) :
  String.length word = 3%nat →
  word ∉ GLOBAL_WHITELIST_3_LETTER_WORDS K →
  (∀ server_id connection,
     Bot.is_word_blacklisted K word server_id connection = true)
  ∧ (∀ self msg future,
       is_submission K self msg →
       lower (content msg) = word →
       Bot.is_word_whitelisted word (guild_id msg) (Bot.SQL_ENGINE self) = false →
       let r := on_message self msg future in
       Bot.exit r = Blacklisted
       ∧ ChannelSend NoticeBlacklisted ∈ Bot.trace r
       ∧ (HandleMistake ∉ Bot.trace r)
       ∧ Bot._config (Bot.final r) = Bot._config self)
  ∧ (∀ w server_id connection,
       server_id = None ∨ connection = None →
       Bot.is_word_blacklisted K w server_id connection
       = Bot.globally_blacklisted K w).
Proof.
  intros Hlen Hnot. split; [|split].
  - intros. by apply three_letter_blacklisted.
  - intros self msg future (Hself & Hchan & Hchars) Hword Hwl. cbv zeta.
    unfold Bot.on_message, Bot.is_word_whitelisted in *.
    rewrite Hself, Hchan, Hchars, Hword, Hlen. simpl.
    rewrite Z.eqb_refl. simpl. rewrite Hwl. simpl.
    rewrite three_letter_blacklisted by done. simpl.
    repeat split; trace_facts.
  - intros. by apply is_word_blacklisted_global_only.
Qed.

Lemma reaction_emoji_failed_member (c : Config.t) :
  Config.failed_member_id (Config.reaction_emoji c).2 = Config.failed_member_id c
  ∧ Config.correct_inputs_by_failed_member (Config.reaction_emoji c).2
    = Config.correct_inputs_by_failed_member c.
Proof. unfold Config.reaction_emoji. by case_match. Qed.

(** The failed-member bookkeeping of an accepted word. *)
Lemma accept_failed_member (s : Bot.t) (msg : message) (word : string)
    (events : list event) :
  let c := Bot._config s in
  let c' := Bot._config (Bot.final (Bot.accept K calculate_total_karma s msg word events)) in
  let inputs := Config.correct_inputs_by_failed_member c + 1 in
  if bool_decide (is_Some (Bot.failed_role s))
     && opt_int_eqb (Config.failed_member_id c) (author_id msg)
  then
    if 30 <=? inputs
    then Config.failed_member_id c' = None
         ∧ Config.correct_inputs_by_failed_member c' = 0
    else Config.failed_member_id c' = Config.failed_member_id c
         ∧ Config.correct_inputs_by_failed_member c' = inputs
  else Config.failed_member_id c' = Config.failed_member_id c
       ∧ Config.correct_inputs_by_failed_member c'
         = Config.correct_inputs_by_failed_member c.
Proof.
  cbv zeta. unfold Bot.accept. simpl.
  destruct (reaction_emoji_failed_member
              (Config.update_current (Bot._config s) (author_id msg) word))
    as [Hid Hinputs].
  simpl in Hid, Hinputs. rewrite Hid, Hinputs.
  repeat case_match; simpl; by rewrite ?Hid, ?Hinputs.
Qed.

(** C10. When a failed role is configured and the failed member gives an
    accepted word, the counter of their correct inputs grows by one;
    when it thereby reaches 30, the failed member is cleared and the
    counter is set to zero. An accepted word of anybody else, or without
    a failed role, leaves both as they were. The counter of a bot that
    starts below 30 never leaves that range, so that "reaches 30" is
    "equals 30". *)
Theorem failed_member_is_cleared_after_30 (self : Bot.t) (msg : message)
    (future : http_result) :
  let r := on_message self msg future in
  let c := Bot._config self in
  let c' := Bot._config (Bot.final r) in
  let inputs := Config.correct_inputs_by_failed_member c + 1 in
  Config.correct_inputs_by_failed_member c < 30 →
  Bot.exit r = Accepted →
  (is_Some (Bot.failed_role self) →
   Config.failed_member_id c = Some (author_id msg) →
     (inputs = 30 →
        Config.failed_member_id c' = None
        ∧ Config.correct_inputs_by_failed_member c' = 0)
     ∧ (inputs ≠ 30 →
        Config.failed_member_id c' = Some (author_id msg)
        ∧ Config.correct_inputs_by_failed_member c' = inputs))
  ∧ (Bot.failed_role self = None
     ∨ Config.failed_member_id c ≠ Some (author_id msg) →
     Config.failed_member_id c' = Config.failed_member_id c
     ∧ Config.correct_inputs_by_failed_member c'
       = Config.correct_inputs_by_failed_member c)
  ∧ Config.correct_inputs_by_failed_member c' < 30.
Proof.
  cbv zeta. intros Hinv.
  destruct (on_message_outcome self msg future) as
    [ | | ev _ _ | ev _ _ | ev _ | ev _ _ | response ev _ | ev _ ];
    try (simpl; intros ?; discriminate).
  intros _.
  pose proof (accept_failed_member (entered self msg) msg
                (lower (content msg)) ev) as Hacc.
  cbv zeta in Hacc.
  change (Bot._config (entered self msg)) with (Bot._config self) in Hacc.
  change (Bot.failed_role (entered self msg)) with (Bot.failed_role self) in Hacc.
  set (c' := Bot._config (Bot.final (Bot.accept _ _ _ _ _ _))) in *.
  clearbody c'.
  revert Hacc.
  destruct (Bot.failed_role self) as [role|];
    destruct (Config.failed_member_id (Bot._config self)) as [failed|];
    simpl; repeat case_match; intros [H1 H2].
  all: repeat match goal with
         | H : (_ =? _) = true |- _ => apply Z.eqb_eq in H
         | H : (_ =? _) = false |- _ => apply Z.eqb_neq in H
         | H : (_ <=? _) = true |- _ => apply Z.leb_le in H
         | H : (_ <=? _) = false |- _ => apply Z.leb_gt in H
         end; subst.
  all: repeat split; intros;
    repeat match goal with
      | H : is_Some None |- _ => destruct H as [? H]; discriminate
      | H : _ ∨ _ |- _ => destruct H
      end;
    try congruence; try lia.
Qed.

Lemma penalize_floor (m : Member.t) : (0 <= Member.karma (Bot.penalize K m))%Q.
Proof. apply sql_max_floor. Qed.

Lemma reward_floor (delta : Q) (m : Member.t) :
  (0 <= Member.karma (Bot.reward delta m))%Q.
Proof. apply sql_max_floor. Qed.

Lemma on_message_karma_floor (self : Bot.t) (msg : message) (future : http_result) :
  karma_floor (Bot.SQL_ENGINE self) →
  karma_floor (Bot.SQL_ENGINE (Bot.final (on_message self msg future))).
Proof.
  intros Hfloor.
  pose proof (karma_floor_add_user _ (guild_id msg) (author_id msg) Hfloor)
    as Hentered.
  destruct (on_message_outcome self msg future) as
    [ | | ev _ _ | ev _ _ | ev _ | ev _ _ | response ev _ | ev _ ];
    try done.
  - unfold Bot.handle_mistake. simpl.
    apply (karma_floor_alter _ (Bot.penalize K) _ penalize_floor Hentered).
  - unfold Bot.accept. simpl. intros key m. simpl.
    apply (karma_floor_alter _ (Bot.reward _) _ (reward_floor _) Hentered).
Qed.

(** C5. The member update of a mistake and the member update of an
    accepted word both store [max(0, ...)], a karma of at least zero; and
    over every sequence of submissions, accepted, mistaken or other, the
    stored karma of every player stays at least zero. *)
Theorem karma_never_below_zero :
  (∀ m, Member.karma (Bot.penalize K m)
        = sql_max 0 (Member.karma m - MISTAKE_PENALTY K)%Q
        ∧ (0 <= Member.karma (Bot.penalize K m))%Q)
  ∧ (∀ delta m, Member.karma (Bot.reward delta m)
                = sql_max 0 (Member.karma m + delta)%Q
                ∧ (0 <= Member.karma (Bot.reward delta m))%Q)
  ∧ (∀ self inputs,
       karma_floor (Bot.SQL_ENGINE self) →
       karma_floor (Bot.SQL_ENGINE (run self inputs))).
Proof.
  split; [|split].
  - intros m. split; [done | apply penalize_floor].
  - intros delta m. split; [done | apply reward_floor].
  - intros self inputs. revert self.
    induction inputs as [|[msg future] inputs IH]; intros self Hfloor; simpl.
    + done.
    + apply IH. by apply on_message_karma_floor.
Qed.

(** The reaction put on an accepted word: the emoji of [reaction_emoji]
    on the updated configuration, unless the word has an emoji of its own
    in [SPECIAL_REACTION_EMOJIS]; [reaction_emoji] is called in both cases. *)
Lemma accept_reaction (s : Bot.t) (msg : message) (word : string)
    (events : list event) :
  let updated := Config.update_current (Bot._config s) (author_id msg) word in
  AddReaction (default (Config.reaction_emoji updated).1
                 (SPECIAL_REACTION_EMOJIS K !! word))
  ∈ Bot.trace (Bot.accept K calculate_total_karma s msg word events).
Proof.
  cbv zeta. unfold Bot.accept. simpl. trace_facts.
Qed.

(** The counter of the failed member stays below 30 over every run. *)
Lemma correct_inputs_below_30 (self : Bot.t) (inputs : list (message * http_result)) :
  Config.correct_inputs_by_failed_member (Bot._config self) < 30 →
  Config.correct_inputs_by_failed_member (Bot._config (run self inputs)) < 30.
Proof.
  revert self.
  induction inputs as [|[msg future] inputs IH]; intros self Hinv; simpl; [done|].
  apply IH.
  destruct (on_message_outcome self msg future) as
    [ | | ev _ _ | ev _ _ | ev _ | ev _ _ | response ev _ | ev _ ];
    try exact Hinv.
  - unfold Bot.handle_mistake. simpl. destruct (Bot.failed_role self); simpl; lia.
  - pose proof (accept_failed_member (entered self msg) msg
                  (lower (content msg)) ev) as Hacc.
    cbv zeta in Hacc.
    change (Bot._config (entered self msg)) with (Bot._config self) in Hacc.
    revert Hacc. repeat case_match; intros [_ ->];
      repeat match goal with
        | H : (_ <=? _) = false |- _ => apply Z.leb_gt in H
        end; lia.
Qed.

(** The loop of [add_to_cache] never adds a word: it stops with the
    compile error at the first word that is not globally blacklisted. *)
Lemma add_to_cache_loop_cases (words : list string) (cache : gset string) :
  Bot.add_to_cache_loop K words cache = inr cache
  ∨ Bot.add_to_cache_loop K words cache = inl (CompileError ["words"]).
Proof.
  induction words as [|word words IH]; simpl; [by left|].
  destruct (Bot.is_word_blacklisted K word None None); simpl; [done|by right].
Qed.

Lemma add_to_cache_never_inserts (self : Bot.t) :
  Bot.word_cache (Bot.SQL_ENGINE (Bot.add_to_cache K self).1)
  = Bot.word_cache (Bot.SQL_ENGINE self).
Proof.
  unfold Bot.add_to_cache.
  destruct (Bot._cached_words self) as [words|]; [|done].
  case_decide; [done|]. simpl.
  by destruct (add_to_cache_loop_cases (elements words)
                 (Bot.word_cache (Bot.SQL_ENGINE self))) as [-> | ->].
Qed.

End Pipeline.

(** ** The karma scorer *)

Section Scorer.

Context (base_karma : string → Q) (decay_rate : Q) (window : nat).

Abbreviation calculate_total_karma :=
  (karma_calcs.calculate_total_karma base_karma decay_rate window).
Abbreviation same_ending := (karma_calcs.same_ending window).

(** A negative base score is returned as it is, whatever the history. *)
Lemma negative_base_karma_unmodified (word : string) (last_words : list string) :
  (base_karma word < 0)%Q →
  calculate_total_karma word last_words = base_karma word.
Proof.
  intros Hneg. unfold karma_calcs.calculate_total_karma.
  destruct (Qle_bool 0 (base_karma word)) eqn:Hle; [|done].
  apply Qle_bool_iff in Hle. exfalso. by apply (Qlt_not_le _ _ Hneg).
Qed.

(** C4. For a word whose base karma is not negative, a history with more
    recent words of the same ending letter gives at most the karma of a
    history with fewer of them. *)
Theorem karma_decay_monotone (word : string) (more fewer : list string) :
  (0 <= decay_rate)%Q →
  (0 <= base_karma word)%Q →
  (same_ending word fewer ≤ same_ending word more)%nat →
  (calculate_total_karma word more <= calculate_total_karma word fewer)%Q.
Proof.
  intros Hrate Hbase Hcount. unfold karma_calcs.calculate_total_karma.
  rewrite (proj2 (Qle_bool_iff _ _) Hbase).
  assert (inject_Z (Z.of_nat (same_ending word fewer))
          <= inject_Z (Z.of_nat (same_ending word more)))%Q as Hle.
  { rewrite <- Zle_Qle. lia. }
  set (k := inject_Z (Z.of_nat (same_ending word fewer))) in *.
  set (k' := inject_Z (Z.of_nat (same_ending word more))) in *.
  clearbody k k'.
  assert (decay_rate * k <= decay_rate * k')%Q as Hdecay.
  { rewrite !(Qmult_comm decay_rate). by apply Qmult_le_compat_r. }
  rewrite !(Qmult_comm (base_karma word)).
  apply Qmult_le_compat_r; [|done].
  apply Qplus_le_r. by apply Qopp_le_compat.
Qed.

End Scorer.

(** ** The game in progress *)

(** Two turns of the example game. *)
Example scenario_accepted :
  let r := Game.on_message Game.bot (Game.says 2 "elephant") HttpTimeout in
  Bot.exit r = Accepted
  ∧ Config.current_count (Bot._config (Bot.final r)) = 5
  ∧ Config.current_word (Bot._config (Bot.final r)) = Some "elephant".
Proof. by vm_compute. Qed.

Example scenario_same_member :
  let r := Game.on_message Game.bot (Game.says 1 "eagle") HttpTimeout in
  Bot.exit r = Mistake
  ∧ Config.current_count (Bot._config (Bot.final r)) = 0
  ∧ Config.failed_member_id (Bot._config (Bot.final r)) = Some 1.
Proof. by vm_compute. Qed.

(** C3 does not hold as stated: the word "apple" has been used before,
    the submission is rejected as a repetition and the chain count is
    still 4, not zero. *)
Lemma repeated_word_keeps_the_count :
  let r := Game.on_message Game.bot (Game.says 2 "apple") HttpTimeout in
  Bot.exit r = Repeated
  ∧ ChannelSend (NoticeRepeated "apple") ∈ Bot.trace r
  ∧ Config.current_count (Bot._config (Bot.final r)) = 4
  ∧ Config.current_count (Bot._config (Bot.final r)) ≠ 0.
Proof.
  vm_compute. repeat split; [repeat constructor | discriminate].
Qed.

(** C7 does not hold as stated: "eqq" has three characters and is not
    in the global three-letter whitelist, so that [is_word_blacklisted] is
    true for it; it is whitelisted for the server, and submitted in play it
    is accepted and the chain count grows from 4 to 5. *)
Lemma server_whitelist_overrides_closed_list :
  let r := Game.on_message Game.bot (Game.says 2 "eqq") HttpTimeout in
  String.length "eqq" = 3%nat
  ∧ ("eqq" ∉ GLOBAL_WHITELIST_3_LETTER_WORDS Game.K)
  ∧ Bot.is_word_blacklisted Game.K "eqq" (Some 9) (Some Game.db) = true
  ∧ Bot.exit r = Accepted
  ∧ Bot.exit r ≠ Blacklisted
  ∧ Config.current_count (Bot._config Game.bot) = 4
  ∧ Config.current_count (Bot._config (Bot.final r)) = 5.
Proof.
  cbv zeta. split; [done|]. split.
  { apply (bool_decide_unpack _). by vm_compute. }
  by vm_compute.
Qed.

(** C6, the code at a pending word: [add_to_cache] passes the keyword
    [words] to a table whose only column is [word]; the statement is
    refused, the pending words are dropped and "hello", which is not
    blacklisted, is not in the cache afterwards. *)
Theorem add_to_cache_refuses_the_insert :
  let self := Bot.set_cached_words Game.bot (Some {["hello"]}) in
  let r := Bot.add_to_cache Game.K self in
  Bot.is_word_blacklisted Game.K "hello" None None = false
  ∧ r.2 = Some (CompileError ["words"])
  ∧ Bot._cached_words r.1 = None
  ∧ "hello" ∉ Bot.word_cache (Bot.SQL_ENGINE r.1).
Proof.
  cbv zeta. split; [by vm_compute|]. split; [by vm_compute|].
  split; [by vm_compute|].
  rewrite add_to_cache_never_inserts.
  apply (bool_decide_unpack _). by vm_compute.
Qed.

(** ** The theorems at work on the example game *)



Lemma single_letter_in_play :
  let r := Game.on_message Game.bot (Game.says 1 "E") HttpTimeout in
  Bot.exit r = SingleLetter
  ∧ Bot.trace r = [AddReaction EMOJI_WARNING; ChannelSend NoticeSingleLetter]
  ∧ (HandleMistake ∉ Bot.trace r)
  ∧ Bot.final r = Game.bot.
Proof.
  apply (single_letter_is_soft_rejection Game.K false Game.karma
           Game.bot (Game.says 1 "E") HttpTimeout).
  - by vm_compute.
  - reflexivity.
Defined.

Lemma same_member_in_play :
  let r := Game.on_message Game.bot (Game.says 1 "eagle") HttpTimeout in
  Bot.exit r = Mistake
  ∧ Config.current_count (Bot._config (Bot.final r)) = 0
  ∧ Config.current_word (Bot._config (Bot.final r)) = Some "apple"
  ∧ Config.current_member_id (Bot._config (Bot.final r)) = Some 1.
Proof.
  assert (Bot.exit (Game.on_message Game.bot (Game.says 1 "eagle") HttpTimeout)
          = Mistake) as Hexit by by vm_compute.
  split; [exact Hexit|].
  destruct (mistake_resets_soft_rejection_keeps Game.K false Game.karma
              Game.bot (Game.says 1 "eagle") HttpTimeout) as [Hmistake _].
  destruct (Hmistake Hexit) as (_ & Hcount & Hword & Hmember).
  by repeat split.
Defined.

Lemma three_letter_word_in_play :
  let r := Game.on_message Game.bot (Game.says 2 "Dog") HttpTimeout in
  Bot.is_word_blacklisted Game.K "dog" None None = true
  ∧ Bot.exit r = Blacklisted
  ∧ Config.current_count (Bot._config (Bot.final r)) = 4.
Proof.
  destruct (three_letter_closed_list Game.K false Game.karma "dog")
    as (Hblack & Hplay & _).
  - reflexivity.
  - apply (bool_decide_unpack _). by vm_compute.
  - split; [apply Hblack|].
    destruct (Hplay Game.bot (Game.says 2 "Dog") HttpTimeout)
      as (Hexit & _ & _ & Hconfig).
    + by vm_compute.
    + reflexivity.
    + by vm_compute.
    + split; [exact Hexit|]. cbv zeta. unfold Game.on_message.
      by rewrite Hconfig.
Defined.

Lemma failed_member_in_play :
  let r := Game.on_message Game.bot (Game.says 2 "elephant") HttpTimeout in
  Config.failed_member_id Game.config = Some 2
  ∧ Config.correct_inputs_by_failed_member Game.config = 29
  ∧ Config.failed_member_id (Bot._config (Bot.final r)) = None
  ∧ Config.correct_inputs_by_failed_member (Bot._config (Bot.final r)) = 0.
Proof.
  split; [reflexivity|]. split; [reflexivity|].
  destruct (failed_member_is_cleared_after_30 Game.K false Game.karma
              Game.bot (Game.says 2 "elephant") HttpTimeout)
    as (Hfailed & _ & _).
  - by vm_compute.
  - by vm_compute.
  - destruct Hfailed as [Hcleared _].
    + by eexists.
    + reflexivity.
    + by apply Hcleared.
Defined.

Lemma karma_floor_in_play :
  karma_floor
    (Bot.SQL_ENGINE
       (Bot.run Game.K false Game.karma Game.bot
          [(Game.says 1 "eagle", HttpTimeout);
           (Game.says 2 "elephant", HttpTimeout);
           (Game.says 2 "tiger", HttpResponse 200 (Some (JArray [JString "tiger"])))])).
Proof.
  destruct (karma_never_below_zero Game.K false Game.karma) as (_ & _ & Hrun).
  apply Hrun.
  intros key m. simpl.
  destruct (decide (key = (9, 1))) as [->|Hne].
  - rewrite lookup_singleton_eq. intros [= <-]. by vm_compute.
  - rewrite lookup_singleton_ne by done. discriminate.
Defined.

Lemma record_reaction :
  (Config.reaction_emoji Game.record_config).1 = EMOJI_HIGH_SCORE
  ∧ Config.put_high_score_emoji (Config.reaction_emoji Game.record_config).2 = true.
Proof.
  destruct reaction_emoji_policy as [Hconfig _].
  destruct (Hconfig Game.record_config) as (Hrecord & _ & _).
  destruct Hrecord as [-> ->]; by repeat split.
Defined.

Lemma repeated_ending_decays :
  (karma_calcs.calculate_total_karma Game.base_karma Game.decay_rate 5
     "as" ["souls"; "age"; "picks"]
   <= karma_calcs.calculate_total_karma Game.base_karma Game.decay_rate 5
        "as" ["souls"; "age"; "wish"])%Q.
Proof.
  apply (karma_decay_monotone Game.base_karma Game.decay_rate 5 "as").
  - by vm_compute.
  - by vm_compute.
  - vm_compute. lia.
Defined.

(** * Further properties of the pipeline *)

#[local] Set Warnings "-clear-no-such-hyp".

Section Rules.

Context (K : consts) (SINGLE_PLAYER : bool).
Context (calculate_total_karma : string → list string → Q).

Abbreviation step := (Bot.on_message K SINGLE_PLAYER calculate_total_karma).
Abbreviation steps := (Bot.run K SINGLE_PLAYER calculate_total_karma).

(** [get_query_response] has three results. *)
Lemma get_query_response_range (future : http_result) :
  Bot.get_query_response future = Bot.API_RESPONSE_WORD_EXISTS
  ∨ Bot.get_query_response future = Bot.API_RESPONSE_WORD_DOESNT_EXIST
  ∨ Bot.get_query_response future = Bot.API_RESPONSE_ERROR.
Proof using Type.
  clear K SINGLE_PLAYER calculate_total_karma.
  unfold Bot.get_query_response. repeat case_match; tauto.
Qed.

Lemma is_word_blacklisted_set_member (word : string) (server_id : option Z)
    (db : Bot.database) (members : gmap (Z * Z) Member.t) :
  Bot.is_word_blacklisted K word server_id (Some (Bot.set_member db members))
  = Bot.is_word_blacklisted K word server_id (Some db).
Proof. reflexivity. Qed.

Lemma is_word_whitelisted_set_member (word : string) (server_id : Z)
    (db : Bot.database) (members : gmap (Z * Z) Member.t) :
  Bot.is_word_whitelisted word server_id (Bot.set_member db members)
  = Bot.is_word_whitelisted word server_id db.
Proof. reflexivity. Qed.

Lemma is_word_in_cache_set_member (word : string)
    (db : Bot.database) (members : gmap (Z * Z) Member.t) :
  Bot.is_word_in_cache word (Bot.set_member db members)
  = Bot.is_word_in_cache word db.
Proof. reflexivity. Qed.

Lemma opt_int_eqb_true (o : option Z) (n : Z) :
  opt_int_eqb o n = true ↔ o = Some n.
Proof.
  destruct o as [m|]; simpl; [|done].
  rewrite Z.eqb_eq. split; congruence.
Qed.

(** An accepted word obeys the rules of the game: it is a submission of
    at least two characters that was not used before on the server, it
    does not come from the member who gave the previous word (unless in
    single-player mode), it starts with the last letter of the previous
    word, and it is whitelisted for the server, or else not blacklisted
    and either in the word cache or confirmed by the dictionary. *)
Theorem accepted_word_obeys_the_rules (self : Bot.t) (msg : message)
    (future : http_result) :
  let r := step self msg future in
  let word := lower (content msg) in
  let c := Bot._config self in
  let db := Bot.SQL_ENGINE self in
  Bot.exit r = Accepted →
  is_submission K self msg
  ∧ (2 ≤ String.length word)%nat
  ∧ ((guild_id msg, word) ∉ Bot.used_words db)
  ∧ (SINGLE_PLAYER = false →
     truthy_int (Config.current_member_id c) = true →
     Config.current_member_id c ≠ Some (author_id msg))
  ∧ (truthy_str (Config.current_word c) = true →
     first_char word = Config.current_word c ≫= last_char)
  ∧ (Bot.is_word_whitelisted word (guild_id msg) db = true
     ∨ (Bot.is_word_blacklisted K word (Some (guild_id msg)) (Some db) = false
        ∧ (Bot.is_word_in_cache word db = true
           ∨ Bot.get_query_response future = Bot.API_RESPONSE_WORD_EXISTS))).
Proof.
  cbv zeta. unfold Bot.on_message, is_submission.
  pipeline_state.
  rewrite !is_word_blacklisted_set_member, !is_word_whitelisted_set_member,
    !is_word_in_cache_set_member.
  split_pipeline; try (intros ?; discriminate); intros _.
  all: bool_facts.
  all: repeat match goal with
         | H : opt_int_eqb _ _ = true |- _ => apply opt_int_eqb_true in H
         end.
  all: pose proof (get_query_response_range future) as Hrange.
  all: repeat split; try done; try lia.
  all: try (intros -> Htruthy Heq;
            match goal with
            | H : negb false && _ && _ = false |- _ =>
                rewrite Htruthy, Heq in H; simpl in H;
                rewrite Z.eqb_refl in H; discriminate
            end).
  all: try (intros Htruthy;
            match goal with
            | H : truthy_str _ && _ = false |- _ =>
                rewrite Htruthy in H; simpl in H;
                by apply negb_false_iff, bool_decide_eq_true in H
            end).
  all: destruct (Bot.is_word_whitelisted _ _ _) eqn:Hwl; [by left|right];
    simpl in *; split; try done; try tauto.
  all: try by left.
Qed.

Lemma reaction_emoji_chain (c : Config.t) :
  let c' := (Config.reaction_emoji c).2 in
  Config.channel_id c' = Config.channel_id c
  ∧ Config.current_count c' = Config.current_count c
  ∧ Config.current_word c' = Config.current_word c
  ∧ Config.high_score c' = Config.high_score c
  ∧ Config.current_member_id c' = Config.current_member_id c
  ∧ Config.failed_role_id c' = Config.failed_role_id c
  ∧ Config.reliable_role_id c' = Config.reliable_role_id c.
Proof. cbv zeta. unfold Config.reaction_emoji. by case_match. Qed.

(** The chain fields of the configuration after an accepted word. *)
Lemma accept_chain (s : Bot.t) (msg : message) (word : string)
    (events : list event) :
  let c := Bot._config s in
  let c' := Bot._config (Bot.final (Bot.accept K calculate_total_karma s msg word events)) in
  Config.channel_id c' = Config.channel_id c
  ∧ Config.current_count c' = Config.current_count c + 1
  ∧ Config.current_word c' = Some word
  ∧ Config.high_score c' = Z.max (Config.high_score c) (Config.current_count c + 1)
  ∧ Config.current_member_id c' = Some (author_id msg)
  ∧ Config.failed_role_id c' = Config.failed_role_id c
  ∧ Config.reliable_role_id c' = Config.reliable_role_id c.
Proof.
  cbv zeta. unfold Bot.accept. pipeline_state.
  destruct (reaction_emoji_chain
              (Config.update_current (Bot._config s) (author_id msg) word))
    as (H1 & H2 & H3 & H4 & H5 & H6 & H7).
  simpl in H1, H2, H3, H4, H5, H6, H7.
  repeat case_match; simpl; by rewrite ?H1, ?H2, ?H3, ?H4, ?H5, ?H6, ?H7.
Qed.

(** What an accepted word changes: the chain grows by one and the word
    becomes the current word of its author, the high score follows, the
    word is recorded as used and waits for the word cache, the author
    gains a point and a correct word and the karma of the word, floored
    at zero, the word enters the author's history, and the busy work is
    scheduled once. *)
Theorem accepted_word_advances_the_chain (self : Bot.t) (msg : message)
    (future : http_result) :
  let r := step self msg future in
  let word := lower (content msg) in
  let author := author_id msg in
  let guild := guild_id msg in
  let c := Bot._config self in
  let c' := Bot._config (Bot.final r) in
  let db := Bot.SQL_ENGINE self in
  let db' := Bot.SQL_ENGINE (Bot.final r) in
  let last_words := default [] (Bot._history self !! author) in
  Bot.exit r = Accepted →
  Config.current_count c' = Config.current_count c + 1
  ∧ Config.current_word c' = Some word
  ∧ Config.current_member_id c' = Some author
  ∧ Config.high_score c' = Z.max (Config.high_score c) (Config.current_count c + 1)
  ∧ Bot.used_words db' = {[(guild, word)]} ∪ Bot.used_words db
  ∧ Bot.member db' !! (guild, author)
    = Some (Bot.reward (calculate_total_karma word last_words)
              (player_stats db guild author))
  ∧ Bot._history (Bot.final r) !! author
    = Some (deque_append (HISTORY_LENGTH K) last_words word)
  ∧ (∃ pending, Bot._cached_words (Bot.final r) = Some pending ∧ word ∈ pending)
  ∧ Bot._busy (Bot.final r) = Bot._busy self + 1
  ∧ ScheduleBusyWork ∈ Bot.trace r.
Proof.
  cbv zeta.
  destruct (on_message_outcome K SINGLE_PLAYER calculate_total_karma self msg future)
    as [ | | ev _ _ | ev _ _ | ev _ | ev _ _ | response ev _ | ev _ ];
    try (simpl; intros ?; discriminate).
  intros _.
  destruct (accept_chain (entered self msg) msg (lower (content msg)) ev)
    as (_ & Hcount & Hword & Hhigh & Hmember & _).
  split; [exact Hcount|]. split; [exact Hword|]. split; [exact Hmember|].
  split; [exact Hhigh|].
  unfold Bot.accept, entered. pipeline_state.
  split; [done|]. split.
  { rewrite lookup_alter_eq, add_user_lookup_author. done. }
  split; [by rewrite lookup_insert_eq|].
  split.
  { destruct (Bot._cached_words self) as [pending|]; eexists; split; try done;
      set_solver. }
  split; [done|].
  simpl. case_match; trace_facts.
Qed.

Lemma failed_member_in_handle_mistake (s : Bot.t) (msg : message)
    (response : notice) (events : list event) :
  let c := Bot._config s in
  let c' := Bot._config (Bot.final (Bot.handle_mistake K s msg response events)) in
  Config.failed_member_id c'
  = match Bot.failed_role s with
    | Some _ => Some (author_id msg)
    | None => Config.failed_member_id c
    end
  ∧ Config.correct_inputs_by_failed_member c' = 0
  ∧ Config.put_high_score_emoji c' = false
  ∧ Config.high_score c' = Config.high_score c
  ∧ Config.channel_id c' = Config.channel_id c.
Proof.
  cbv zeta. unfold Bot.handle_mistake. pipeline_state.
  by destruct (Bot.failed_role s).
Qed.

(** What a mistake changes: the author loses a point, has one more wrong
    word and pays the penalty in karma, floored at zero; the author
    becomes the failed member when a failed role is set; the high-score
    flag and the counter of the failed member are cleared; the high
    score, the used words and the histories stay, and the wrong word is
    not recorded as used. *)
Theorem mistake_penalises_the_author (self : Bot.t) (msg : message)
    (future : http_result) :
  let r := step self msg future in
  let author := author_id msg in
  let guild := guild_id msg in
  let c := Bot._config self in
  let c' := Bot._config (Bot.final r) in
  let db := Bot.SQL_ENGINE self in
  let db' := Bot.SQL_ENGINE (Bot.final r) in
  Bot.exit r = Mistake →
  Bot.member db' !! (guild, author)
  = Some (Bot.penalize K (player_stats db guild author))
  ∧ Config.failed_member_id c'
    = match Bot.failed_role self with
      | Some _ => Some author
      | None => Config.failed_member_id c
      end
  ∧ Config.correct_inputs_by_failed_member c' = 0
  ∧ Config.put_high_score_emoji c' = false
  ∧ Config.high_score c' = Config.high_score c
  ∧ Bot.used_words db' = Bot.used_words db
  ∧ Bot._history (Bot.final r) = Bot._history self
  ∧ Bot._cached_words (Bot.final r) = Bot._cached_words self
  ∧ Bot._busy (Bot.final r) = Bot._busy self + 1
  ∧ AddReaction EMOJI_CROSS ∈ Bot.trace r
  ∧ ScheduleBusyWork ∈ Bot.trace r.
Proof.
  cbv zeta.
  destruct (on_message_outcome K SINGLE_PLAYER calculate_total_karma self msg future)
    as [ | | ev _ _ | ev _ _ | ev _ | ev _ _ | response ev _ | ev _ ];
    try (simpl; intros ?; discriminate).
  intros _.
  destruct (failed_member_in_handle_mistake (entered self msg) msg response ev)
    as (Hfailed & Hinputs & Hflag & Hhigh & _).
  split.
  { unfold Bot.handle_mistake, entered. pipeline_state.
    by rewrite lookup_alter_eq, add_user_lookup_author. }
  split; [exact Hfailed|]. split; [exact Hinputs|]. split; [exact Hflag|].
  split; [exact Hhigh|].
  rewrite handle_mistake_trace.
  repeat split; trace_facts.
Qed.

(** ** What a submission leaves alone *)

Lemma accept_frame (s : Bot.t) (msg : message) (word : string)
    (events : list event) :
  let s' := Bot.final (Bot.accept K calculate_total_karma s msg word events) in
  Bot.blacklist (Bot.SQL_ENGINE s') = Bot.blacklist (Bot.SQL_ENGINE s)
  ∧ Bot.whitelist (Bot.SQL_ENGINE s') = Bot.whitelist (Bot.SQL_ENGINE s)
  ∧ Bot.word_cache (Bot.SQL_ENGINE s') = Bot.word_cache (Bot.SQL_ENGINE s)
  ∧ Bot.failed_role s' = Bot.failed_role s
  ∧ Bot.member (Bot.SQL_ENGINE s')
    = alter (Bot.reward (calculate_total_karma word
                           (default [] (Bot._history s !! author_id msg))))
        (guild_id msg, author_id msg) (Bot.member (Bot.SQL_ENGINE s))
  ∧ Bot._history s'
    = <[author_id msg := deque_append (HISTORY_LENGTH K)
                           (default [] (Bot._history s !! author_id msg)) word]>
        (Bot._history s)
  ∧ Bot.used_words (Bot.SQL_ENGINE s')
    = {[(guild_id msg, word)]} ∪ Bot.used_words (Bot.SQL_ENGINE s).
Proof. cbv zeta. unfold Bot.accept. pipeline_state. by repeat split. Qed.

Lemma handle_mistake_frame (s : Bot.t) (msg : message) (response : notice)
    (events : list event) :
  let s' := Bot.final (Bot.handle_mistake K s msg response events) in
  Bot.blacklist (Bot.SQL_ENGINE s') = Bot.blacklist (Bot.SQL_ENGINE s)
  ∧ Bot.whitelist (Bot.SQL_ENGINE s') = Bot.whitelist (Bot.SQL_ENGINE s)
  ∧ Bot.word_cache (Bot.SQL_ENGINE s') = Bot.word_cache (Bot.SQL_ENGINE s)
  ∧ Bot.failed_role s' = Bot.failed_role s
  ∧ Bot.member (Bot.SQL_ENGINE s')
    = alter (Bot.penalize K) (guild_id msg, author_id msg)
        (Bot.member (Bot.SQL_ENGINE s))
  ∧ Bot._history s' = Bot._history s
  ∧ Bot.used_words (Bot.SQL_ENGINE s') = Bot.used_words (Bot.SQL_ENGINE s).
Proof. cbv zeta. unfold Bot.handle_mistake. pipeline_state. by repeat split. Qed.

(** A submission changes nothing but the chain and its author: the
    blacklist, the whitelist and the word cache of the database are never
    written, the channel and the roles of the configuration stay, the
    member rows and the histories of all other players stay, and the used
    words only grow. *)
Theorem submission_touches_only_its_author (self : Bot.t) (msg : message)
    (future : http_result) :
  let r := step self msg future in
  let c := Bot._config self in
  let c' := Bot._config (Bot.final r) in
  let db := Bot.SQL_ENGINE self in
  let db' := Bot.SQL_ENGINE (Bot.final r) in
  Bot.blacklist db' = Bot.blacklist db
  ∧ Bot.whitelist db' = Bot.whitelist db
  ∧ Bot.word_cache db' = Bot.word_cache db
  ∧ Bot.failed_role (Bot.final r) = Bot.failed_role self
  ∧ Config.channel_id c' = Config.channel_id c
  ∧ Config.failed_role_id c' = Config.failed_role_id c
  ∧ Config.reliable_role_id c' = Config.reliable_role_id c
  ∧ (∀ key, key ≠ (guild_id msg, author_id msg) →
       Bot.member db' !! key = Bot.member db !! key)
  ∧ (∀ author, author ≠ author_id msg →
       Bot._history (Bot.final r) !! author = Bot._history self !! author)
  ∧ Bot.used_words db ⊆ Bot.used_words db'.
Proof.
  cbv zeta.
  destruct (on_message_outcome K SINGLE_PLAYER calculate_total_karma self msg future)
    as [ | | ev _ _ | ev _ _ | ev _ | ev _ _ | response ev _ | ev _ ].
  1,2: by repeat split.
  1-4: unfold left, entered; pipeline_state; repeat split; try done;
       intros; by apply add_user_lookup_other.
  - destruct (handle_mistake_frame (entered self msg) msg response ev)
      as (H1 & H2 & H3 & H4 & H5 & H6 & H7).
    destruct (failed_member_in_handle_mistake (entered self msg) msg response ev)
      as (_ & _ & _ & _ & H8).
    cbv zeta in *. rewrite H1, H2, H3, H4, H5, H6, H7, H8.
    unfold Bot.handle_mistake, entered. pipeline_state.
    repeat split; try done.
    + by destruct (Bot.failed_role self).
    + by destruct (Bot.failed_role self).
    + intros key Hkey. rewrite lookup_alter_ne by done.
      by apply add_user_lookup_other.
  - destruct (accept_frame (entered self msg) msg (lower (content msg)) ev)
      as (H1 & H2 & H3 & H4 & H5 & H6 & H7).
    destruct (accept_chain (entered self msg) msg (lower (content msg)) ev)
      as (H8 & _ & _ & _ & _ & H9 & H10).
    cbv zeta in *. rewrite H1, H2, H3, H4, H5, H6, H7, H8, H9, H10.
    unfold entered. pipeline_state.
    repeat split; try done.
    + intros key Hkey. rewrite lookup_alter_ne by done.
      by apply add_user_lookup_other.
    + intros author Hauthor. by rewrite lookup_insert_ne.
    + set_solver.
Qed.

(** ** A word is played once *)

Lemma used_words_grow (self : Bot.t) (msg : message) (future : http_result) :
  Bot.used_words (Bot.SQL_ENGINE self)
  ⊆ Bot.used_words (Bot.SQL_ENGINE (Bot.final (step self msg future))).
Proof.
  destruct (on_message_outcome K SINGLE_PLAYER calculate_total_karma self msg future)
    as [ | | ev _ _ | ev _ _ | ev _ | ev _ _ | response ev _ | ev _ ];
    try done.
  destruct (accept_frame (entered self msg) msg (lower (content msg)) ev)
    as (_ & _ & _ & _ & _ & _ & Hused).
  cbv zeta in Hused. rewrite Hused.
  unfold entered. pipeline_state. set_solver.
Qed.

Lemma used_words_grow_steps (self : Bot.t) (inputs : list (message * http_result)) :
  Bot.used_words (Bot.SQL_ENGINE self)
  ⊆ Bot.used_words (Bot.SQL_ENGINE (steps self inputs)).
Proof.
  revert self. induction inputs as [|[msg future] inputs IH]; intros self; simpl.
  - done.
  - etrans; [apply used_words_grow | apply IH].
Qed.

Lemma accepted_word_is_recorded (self : Bot.t) (msg : message) (future : http_result) :
  Bot.exit (step self msg future) = Accepted →
  (guild_id msg, lower (content msg))
  ∈ Bot.used_words (Bot.SQL_ENGINE (Bot.final (step self msg future))).
Proof.
  destruct (on_message_outcome K SINGLE_PLAYER calculate_total_karma self msg future)
    as [ | | ev _ _ | ev _ _ | ev _ | ev _ _ | response ev _ | ev _ ];
    try (simpl; intros ?; discriminate).
  intros _.
  destruct (accept_frame (entered self msg) msg (lower (content msg)) ev)
    as (_ & _ & _ & _ & _ & _ & Hused).
  cbv zeta in Hused. rewrite Hused. set_solver.
Qed.

(** A used word goes no further than the repetition check. *)
Lemma used_word_is_stopped (self : Bot.t) (msg : message) (future : http_result) :
  (guild_id msg, lower (content msg)) ∈ Bot.used_words (Bot.SQL_ENGINE self) →
  let r := step self msg future in
  Bot.exit r = Ignored ∨ Bot.exit r = SingleLetter
  ∨ Bot.exit r = Blacklisted ∨ Bot.exit r = Repeated.
Proof.
  intros Hused. cbv zeta. unfold Bot.on_message. pipeline_state.
  rewrite (bool_decide_eq_true_2 _ Hused).
  split_pipeline; tauto.
Qed.

(** Once a word is accepted on a server, no later submission of the same
    word on that server is accepted or counted as a mistake, whatever
    happens in between: it is ignored, or rejected as a single letter, as
    blacklisted or as a repetition. *)
Theorem accepted_word_is_never_played_again (self : Bot.t) (msg : message)
    (future : http_result) (inputs : list (message * http_result))
    (msg' : message) (future' : http_result) :
  Bot.exit (step self msg future) = Accepted →
  guild_id msg' = guild_id msg →
  lower (content msg') = lower (content msg) →
  let later := steps (Bot.final (step self msg future)) inputs in
  let r := step later msg' future' in
  Bot.exit r ≠ Accepted ∧ Bot.exit r ≠ Mistake
  ∧ (Bot.exit r = Ignored ∨ Bot.exit r = SingleLetter
     ∨ Bot.exit r = Blacklisted ∨ Bot.exit r = Repeated).
Proof.
  intros Haccepted Hguild Hword. cbv zeta.
  assert ((guild_id msg', lower (content msg'))
          ∈ Bot.used_words
              (Bot.SQL_ENGINE (steps (Bot.final (step self msg future)) inputs)))
    as Hused.
  { rewrite Hguild, Hword.
    apply used_words_grow_steps. by apply accepted_word_is_recorded. }
  pose proof (used_word_is_stopped _ msg' future' Hused) as Hstop.
  cbv zeta in Hstop.
  repeat split; try exact Hstop; intros Hexit; rewrite Hexit in Hstop;
    destruct Hstop as [?|[?|[?|?]]]; discriminate.
Qed.

(** ** Invariants over every run *)

Lemma books_balanced_add_user (db : Bot.database) (guild author : Z) :
  books_balanced db →
  books_balanced (Bot.set_member db (Bot.add_user guild author (Bot.member db))).
Proof.
  intros Hbooks key m. simpl. unfold Bot.add_user.
  destruct (Bot.member db !! (guild, author)) eqn:Hrow; [apply Hbooks|].
  destruct (decide (key = (guild, author))) as [->|Hne].
  - rewrite lookup_insert_eq. intros [= <-]. simpl. lia.
  - rewrite lookup_insert_ne by done. apply Hbooks.
Qed.

Lemma books_balanced_alter (members : gmap (Z * Z) Member.t)
    (f : Member.t → Member.t) (key : Z * Z) (db : Bot.database) :
  (∀ m, Member.score m = Member.correct m - Member.wrong m
        ∧ 0 ≤ Member.correct m ∧ 0 ≤ Member.wrong m →
        Member.score (f m) = Member.correct (f m) - Member.wrong (f m)
        ∧ 0 ≤ Member.correct (f m) ∧ 0 ≤ Member.wrong (f m)) →
  Bot.member db = alter f key members →
  (∀ k m, members !! k = Some m →
     Member.score m = Member.correct m - Member.wrong m
     ∧ 0 ≤ Member.correct m ∧ 0 ≤ Member.wrong m) →
  books_balanced db.
Proof.
  intros Hf Hdb Hbooks key' m. rewrite Hdb.
  destruct (decide (key = key')) as [->|Hne].
  - rewrite lookup_alter_eq.
    destruct (members !! key') eqn:Hrow; simpl; [|done].
    intros [= <-]. apply Hf. by eapply Hbooks.
  - rewrite lookup_alter_ne by done. apply Hbooks.
Qed.

Lemma on_message_books_balanced (self : Bot.t) (msg : message) (future : http_result) :
  books_balanced (Bot.SQL_ENGINE self) →
  books_balanced (Bot.SQL_ENGINE (Bot.final (step self msg future))).
Proof.
  intros Hbooks.
  pose proof (books_balanced_add_user _ (guild_id msg) (author_id msg) Hbooks)
    as Hentered.
  destruct (on_message_outcome K SINGLE_PLAYER calculate_total_karma self msg future)
    as [ | | ev _ _ | ev _ _ | ev _ | ev _ _ | response ev _ | ev _ ];
    try done.
  - destruct (handle_mistake_frame (entered self msg) msg response ev)
      as (_ & _ & _ & _ & Hmember & _).
    eapply books_balanced_alter; [|exact Hmember|exact Hentered].
    intros m (? & ? & ?). simpl. lia.
  - destruct (accept_frame (entered self msg) msg (lower (content msg)) ev)
      as (_ & _ & _ & _ & Hmember & _).
    eapply books_balanced_alter; [|exact Hmember|exact Hentered].
    intros m (? & ? & ?). simpl. lia.
Qed.

(** Over every run of submissions the books of every player stay
    balanced: the score is the number of correct words minus the number
    of wrong words, and neither number is negative. *)
Theorem score_is_correct_minus_wrong (self : Bot.t)
    (inputs : list (message * http_result)) :
  books_balanced (Bot.SQL_ENGINE self) →
  books_balanced (Bot.SQL_ENGINE (steps self inputs)).
Proof.
  revert self. induction inputs as [|[msg future] inputs IH]; intros self Hbooks;
    simpl; [done|].
  apply IH. by apply on_message_books_balanced.
Qed.

Lemma on_message_high_score (self : Bot.t) (msg : message) (future : http_result) :
  let c := Bot._config self in
  let c' := Bot._config (Bot.final (step self msg future)) in
  Config.high_score c ≤ Config.high_score c'
  ∧ (count_within_high_score c → count_within_high_score c').
Proof.
  cbv zeta. unfold count_within_high_score.
  destruct (on_message_outcome K SINGLE_PLAYER calculate_total_karma self msg future)
    as [ | | ev _ _ | ev _ _ | ev _ | ev _ _ | response ev _ | ev _ ];
    try (split; [reflexivity | done]).
  - destruct (failed_member_in_handle_mistake (entered self msg) msg response ev)
      as (_ & _ & _ & Hhigh & _).
    destruct (handle_mistake_config K (entered self msg) msg response ev)
      as (Hcount & _).
    cbv zeta in *. rewrite Hhigh, Hcount.
    change (Bot._config (entered self msg)) with (Bot._config self). lia.
  - destruct (accept_chain (entered self msg) msg (lower (content msg)) ev)
      as (_ & Hcount & _ & Hhigh & _).
    cbv zeta in *. rewrite Hhigh, Hcount.
    change (Bot._config (entered self msg)) with (Bot._config self). lia.
Qed.

(** Over every run the high score never goes down, and a chain count
    between zero and the high score stays between zero and the high
    score. *)
Theorem high_score_bounds_the_chain (self : Bot.t)
    (inputs : list (message * http_result)) :
  let c := Bot._config self in
  let c' := Bot._config (steps self inputs) in
  Config.high_score c ≤ Config.high_score c'
  ∧ (count_within_high_score c → count_within_high_score c').
Proof.
  cbv zeta. revert self.
  induction inputs as [|[msg future] inputs IH]; intros self; simpl.
  - split; [reflexivity | done].
  - destruct (on_message_high_score self msg future) as [Hhigh Hcount].
    destruct (IH (Bot.final (step self msg future))) as [Hhigh' Hcount'].
    split; [lia | auto].
Qed.

Lemma deque_append_length {A} (maxlen : nat) (d : list A) (x : A) :
  List.length (deque_append maxlen d x) = Nat.min maxlen (List.length d + 1).
Proof.
  unfold deque_append. rewrite length_drop, length_app. simpl. lia.
Qed.

(** [deque(maxlen=n).append(x)] keeps the newest entries: the result is
    the end of the old content followed by [x]. *)
Lemma deque_append_suffix {A} (maxlen : nat) (d : list A) (x : A) :
  deque_append maxlen d x `suffix_of` (d ++ [x])%list.
Proof. unfold deque_append. apply suffix_drop. Qed.

Lemma deque_append_last {A} (maxlen : nat) (d : list A) (x : A) :
  (0 < maxlen)%nat → last (deque_append maxlen d x) = Some x.
Proof.
  intros Hpositive. unfold deque_append.
  rewrite drop_app_le by (rewrite length_app; simpl; lia).
  apply last_snoc.
Qed.

Lemma on_message_history_bounded (self : Bot.t) (msg : message)
    (future : http_result) :
  history_bounded K self →
  history_bounded K (Bot.final (step self msg future)).
Proof.
  intros Hbounded.
  destruct (on_message_outcome K SINGLE_PLAYER calculate_total_karma self msg future)
    as [ | | ev _ _ | ev _ _ | ev _ | ev _ _ | response ev _ | ev _ ];
    try done.
  intros author words.
  destruct (accept_frame (entered self msg) msg (lower (content msg)) ev)
    as (_ & _ & _ & _ & _ & Hhistory & _).
  cbv zeta in Hhistory. rewrite Hhistory.
  destruct (decide (author = author_id msg)) as [->|Hne].
  - rewrite lookup_insert_eq. intros [= <-].
    rewrite deque_append_length. lia.
  - rewrite lookup_insert_ne by done. apply Hbounded.
Qed.

(** Over every run no history of recent words grows beyond
    [HISTORY_LENGTH], and after an accepted word the history of its author
    ends with that word whenever [HISTORY_LENGTH] is not zero. *)
Theorem history_stays_bounded (self : Bot.t)
    (inputs : list (message * http_result)) :
  history_bounded K self →
  history_bounded K (steps self inputs)
  ∧ (∀ msg future,
       let r := step (steps self inputs) msg future in
       Bot.exit r = Accepted → (0 < HISTORY_LENGTH K)%nat →
       ∃ words, Bot._history (Bot.final r) !! author_id msg = Some words
                ∧ last words = Some (lower (content msg))
                ∧ (List.length words ≤ HISTORY_LENGTH K)%nat).
Proof.
  intros Hbounded.
  assert (history_bounded K (steps self inputs)) as Hlater.
  { revert self Hbounded.
    induction inputs as [|[msg future] inputs IH]; intros self Hbounded;
      simpl; [done|].
    apply IH. by apply on_message_history_bounded. }
  split; [exact Hlater|].
  intros msg future. cbv zeta. set (later := steps self inputs) in *.
  destruct (on_message_outcome K SINGLE_PLAYER calculate_total_karma later msg future)
    as [ | | ev _ _ | ev _ _ | ev _ | ev _ _ | response ev _ | ev _ ];
    try (simpl; intros ?; discriminate).
  intros _ Hpositive.
  destruct (accept_frame (entered later msg) msg (lower (content msg)) ev)
    as (_ & _ & _ & _ & _ & Hhistory & _).
  cbv zeta in Hhistory. rewrite Hhistory, lookup_insert_eq.
  eexists. split; [done|]. split.
  - by apply deque_append_last.
  - rewrite deque_append_length. lia.
Qed.

Lemma sql_max_zero (x : Q) : (x <= 0)%Q → (sql_max 0 x == 0)%Q.
Proof.
  intros Hx. unfold sql_max. destruct (Qle_bool 0 x) eqn:Hle; [|reflexivity].
  apply Qle_bool_iff in Hle. by apply Qle_antisym.
Qed.

Lemma karma_is_earned_add_user (db : Bot.database) (guild author : Z) :
  karma_is_earned db →
  karma_is_earned (Bot.set_member db (Bot.add_user guild author (Bot.member db))).
Proof.
  intros Hearned key m. simpl. unfold Bot.add_user.
  destruct (Bot.member db !! (guild, author)) eqn:Hrow; [apply Hearned|].
  destruct (decide (key = (guild, author))) as [->|Hne].
  - rewrite lookup_insert_eq. intros [= <-]. simpl. by repeat split.
  - rewrite lookup_insert_ne by done. apply Hearned.
Qed.

Lemma karma_is_earned_alter (f : Member.t → Member.t) (key : Z * Z)
    (db db0 : Bot.database) :
  (∀ m, (0 <= Member.karma m)%Q ∧ 0 ≤ Member.correct m ∧ 0 ≤ Member.wrong m
        ∧ (Member.correct m = 0 → (Member.karma m == 0)%Q) →
        (0 <= Member.karma (f m))%Q ∧ 0 ≤ Member.correct (f m)
        ∧ 0 ≤ Member.wrong (f m)
        ∧ (Member.correct (f m) = 0 → (Member.karma (f m) == 0)%Q)) →
  Bot.member db = alter f key (Bot.member db0) →
  karma_is_earned db0 →
  karma_is_earned db.
Proof.
  intros Hf Hdb Hearned key' m. rewrite Hdb.
  destruct (decide (key = key')) as [->|Hne].
  - rewrite lookup_alter_eq.
    destruct (Bot.member db0 !! key') eqn:Hrow; simpl; [|done].
    intros [= <-]. apply Hf. by eapply Hearned.
  - rewrite lookup_alter_ne by done. apply Hearned.
Qed.

Lemma on_message_karma_is_earned (self : Bot.t) (msg : message)
    (future : http_result) :
  (0 <= MISTAKE_PENALTY K)%Q →
  karma_is_earned (Bot.SQL_ENGINE self) →
  karma_is_earned (Bot.SQL_ENGINE (Bot.final (step self msg future))).
Proof.
  intros Hpenalty Hearned.
  pose proof (karma_is_earned_add_user _ (guild_id msg) (author_id msg) Hearned)
    as Hentered.
  destruct (on_message_outcome K SINGLE_PLAYER calculate_total_karma self msg future)
    as [ | | ev _ _ | ev _ _ | ev _ | ev _ _ | response ev _ | ev _ ];
    try done.
  - destruct (handle_mistake_frame (entered self msg) msg response ev)
      as (_ & _ & _ & _ & Hmember & _).
    eapply karma_is_earned_alter; [|exact Hmember|exact Hentered].
    intros m (Hkarma & Hcorrect & Hwrong & Hzero). simpl.
    split; [apply sql_max_floor|]. split; [done|]. split; [lia|].
    intros Hnone. apply sql_max_zero.
    rewrite (Hzero Hnone).
    apply (Qplus_le_l _ _ (MISTAKE_PENALTY K)). ring_simplify. exact Hpenalty.
  - destruct (accept_frame (entered self msg) msg (lower (content msg)) ev)
      as (_ & _ & _ & _ & Hmember & _).
    eapply karma_is_earned_alter; [|exact Hmember|exact Hentered].
    intros m (Hkarma & Hcorrect & Hwrong & Hzero). simpl.
    split; [apply sql_max_floor|]. split; [lia|]. split; [done|]. lia.
Qed.

(** With a mistake penalty that is not negative, karma is only ever
    earned with a correct word: over every run, a member without a
    correct word has no karma, so that a member with karma has a correct
    word, which is what makes the division by [correct + wrong] in
    [add_remove_reliable_role], guarded by [karma != 0], safe. *)
Theorem karma_needs_a_correct_word (self : Bot.t)
    (inputs : list (message * http_result)) :
  (0 <= MISTAKE_PENALTY K)%Q →
  karma_is_earned (Bot.SQL_ENGINE self) →
  karma_is_earned (Bot.SQL_ENGINE (steps self inputs))
  ∧ (∀ key m, Bot.member (Bot.SQL_ENGINE (steps self inputs)) !! key = Some m →
       ¬ (Member.karma m == 0)%Q → 0 < Member.correct m + Member.wrong m).
Proof.
  intros Hpenalty Hearned.
  assert (karma_is_earned (Bot.SQL_ENGINE (steps self inputs))) as Hlater.
  { revert self Hearned.
    induction inputs as [|[msg future] inputs IH]; intros self Hearned;
      simpl; [done|].
    apply IH. by apply on_message_karma_is_earned. }
  split; [exact Hlater|].
  intros key m Hrow Hkarma.
  destruct (Hlater key m Hrow) as (_ & Hcorrect & Hwrong & Hzero).
  destruct (decide (Member.correct m = 0)) as [Hnone|Hsome]; [|lia].
  exfalso. apply Hkarma. by apply Hzero.
Qed.

(** ** The ways out of [on_message] *)



Lemma string_length_zero (s : string) : String.length s = 0%nat ↔ s = "".
Proof. destruct s; simpl; split; intros H; done || discriminate. Qed.

(** A message is ignored, without a reply and without a change of state,
    exactly when it is not a submission (it comes from the bot itself or
    from another channel, no channel being a different channel, or it has
    a character outside the alphabet) or when it is empty. *)
Theorem ignored_messages (self : Bot.t) (msg : message) (future : http_result) :
  let r := step self msg future in
  (Bot.exit r = Ignored ↔ ¬ is_submission K self msg ∨ lower (content msg) = "")
  ∧ (Bot.exit r = Ignored → Bot.final r = self ∧ Bot.trace r = []).
Proof.
  cbv zeta. unfold Bot.on_message, is_submission. pipeline_state.
  destruct (author_is_self msg) eqn:Hself; simpl.
  { split; [|done]. split; [intros _; left|done]. by intros (? & _). }
  destruct (opt_int_eqb _ _) eqn:Hchannel; simpl.
  2: { split; [|done]. split; [intros _; left|done].
       intros (_ & Hc & _). apply opt_int_eqb_true in Hc. congruence. }
  apply opt_int_eqb_true in Hchannel.
  destruct (all_chars_in _ _) eqn:Hchars; simpl.
  2: { split; [|done]. split; [intros _; left|done]. by intros (_ & _ & ?). }
  destruct (Nat.eqb_spec (String.length (lower (content msg))) 0) as [Hzero|Hzero];
    simpl.
  { split; [|done]. split; [intros _; right|done]. by apply string_length_zero. }
  assert (¬ (¬ (false = false ∧ Config.channel_id (Bot._config self)
                                 = Some (channel_id msg) ∧ true = true)
             ∨ lower (content msg) = "")) as Hplay.
  { intros [Hnot | Hempty]; [by apply Hnot|].
    by apply Hzero, string_length_zero. }
  unfold Bot.handle_mistake, Bot.accept.
  split_pipeline; (split; [split; [intros ?; discriminate | intros ?; by destruct Hplay]
                          | intros ?; discriminate]).
Qed.






(** ** The dictionary lookup *)

(** The verdict of [get_query_response]. The word exists only for an
    answer with a status below 400 whose first entry and whose first
    match are strings that are equal without regard to case. For an
    answer of the form [[query, [match, ...], ...]] the word exists when
    the match equals the query without regard to case and does not exist
    otherwise; with an empty list of matches, or with fewer than two
    entries, it does not exist. *)
Theorem word_exists_only_for_a_matching_answer :
  (∀ future,
     Bot.get_query_response future = Bot.API_RESPONSE_WORD_EXISTS ↔
     ∃ status_code data word matches best_match w,
       future = HttpResponse status_code (Some data)
       ∧ status_code < 400
       ∧ subscript data 0 = Item word
       ∧ subscript data 1 = Item matches
       ∧ subscript matches 0 = Item best_match
       ∧ json_lower word = Some w ∧ json_lower best_match = Some w)
  ∧ (∀ status_code query best_match others rest,
       status_code < 400 →
       Bot.get_query_response
         (HttpResponse status_code
            (Some (JArray (JString query :: JArray (JString best_match :: others) :: rest))))
       = if decide (lower best_match = lower query)
         then Bot.API_RESPONSE_WORD_EXISTS
         else Bot.API_RESPONSE_WORD_DOESNT_EXIST)
  ∧ (∀ status_code query rest,
       status_code < 400 →
       Bot.get_query_response
         (HttpResponse status_code (Some (JArray (JString query :: JArray [] :: rest))))
       = Bot.API_RESPONSE_WORD_DOESNT_EXIST)
  ∧ (∀ status_code entries,
       status_code < 400 → (List.length entries < 2)%nat →
       Bot.get_query_response (HttpResponse status_code (Some (JArray entries)))
       = Bot.API_RESPONSE_WORD_DOESNT_EXIST).
Proof.
  split; [|split; [|split]].
  - intros future. split.
    + unfold Bot.get_query_response, Bot.API_RESPONSE_WORD_EXISTS,
        Bot.API_RESPONSE_WORD_DOESNT_EXIST, Bot.API_RESPONSE_ERROR.
      destruct future as [| |status_code [data|]]; try (intros ?; discriminate).
      2: { case_match; intros ?; discriminate. }
      destruct (Z.leb_spec 400 status_code); [intros ?; discriminate|].
      destruct (subscript data 0) as [word| |] eqn:Hword;
        try (intros ?; discriminate).
      destruct (subscript data 1) as [matches| |] eqn:Hmatches;
        try (intros ?; discriminate).
      destruct (subscript matches 0) as [best_match| |] eqn:Hbest;
        try (intros ?; discriminate).
      destruct (json_lower best_match) as [b|] eqn:Hb; [|intros ?; discriminate].
      destruct (json_lower word) as [w|] eqn:Hw; [|intros ?; discriminate].
      case_decide; [|intros ?; discriminate]. subst b. intros _.
      exists status_code, data, word, matches, best_match, w.
      repeat split; try done; lia.
    + intros (status_code & data & word & matches & best_match & w
              & -> & Hstatus & Hword & Hmatches & Hbest & Hw & Hb).
      unfold Bot.get_query_response.
      rewrite (proj2 (Z.leb_gt _ _) Hstatus), Hword, Hmatches, Hbest, Hw, Hb.
      by rewrite decide_True.
  - intros status_code query best_match others rest Hstatus. simpl.
    by rewrite (proj2 (Z.leb_gt _ _) Hstatus).
  - intros status_code query rest Hstatus. simpl.
    by rewrite (proj2 (Z.leb_gt _ _) Hstatus).
  - intros status_code entries Hstatus Hentries. simpl.
    rewrite (proj2 (Z.leb_gt _ _) Hstatus).
    destruct entries as [|first [|second entries]]; simpl in *; try done; lia.
Qed.

(** ** The high-score reaction *)



(** ** The blacklist and the whitelist of a server *)

Lemma words_of_server_spec (guild : Z) (table : gset (Z * string)) (word : string) :
  word ∈ words_of_server guild table ↔ (guild, word) ∈ table.
Proof.
  unfold words_of_server. rewrite list_elem_of_fmap. split.
  - intros ([g w] & -> & Hin). apply list_elem_of_In, filter_In in Hin.
    destruct Hin as [Hin Hg]. apply bool_decide_eq_true in Hg. simpl in *.
    subst g. by apply list_elem_of_In, elem_of_elements in Hin.
  - intros Hin. exists (guild, word). split; [done|].
    apply list_elem_of_In, filter_In. split.
    + by apply list_elem_of_In, elem_of_elements.
    + by apply bool_decide_eq_true.
Qed.

(** The whitelist commands on a legal word: after [add] the word, in
    lower case, is whitelisted on the server and shown, after [remove] it
    is not; [add] twice is [add] once, and [remove] after [add] gives the
    database back when the word was not whitelisted before; no other
    entry and no other table is changed. A word with a character outside
    the alphabet changes nothing. *)
Theorem whitelist_commands (db : Bot.database) (guild : Z) (word : string) :
  let added := (WhitelistCmdGroup.add K db guild word).1 in
  let removed := (WhitelistCmdGroup.remove K db guild word).1 in
  (all_chars_in (POSSIBLE_CHARACTERS K) (lower word) = true →
     Bot.is_word_whitelisted (lower word) guild added = true
     ∧ lower word ∈ WhitelistCmdGroup.show added guild
     ∧ Bot.is_word_whitelisted (lower word) guild removed = false
     ∧ (lower word ∉ WhitelistCmdGroup.show removed guild)
     ∧ (WhitelistCmdGroup.add K added guild word).1 = added
     ∧ (Bot.is_word_whitelisted (lower word) guild db = false →
        (WhitelistCmdGroup.remove K added guild word).1 = db)
     ∧ (∀ g w, (g, w) ≠ (guild, lower word) →
          Bot.is_word_whitelisted w g added = Bot.is_word_whitelisted w g db
          ∧ Bot.is_word_whitelisted w g removed = Bot.is_word_whitelisted w g db)
     ∧ set_whitelist added (Bot.whitelist db) = db
     ∧ set_whitelist removed (Bot.whitelist db) = db)
  ∧ (all_chars_in (POSSIBLE_CHARACTERS K) (lower word) = false →
     WhitelistCmdGroup.add K db guild word = (db, NotALegalWord (lower word))
     ∧ WhitelistCmdGroup.remove K db guild word = (db, NotALegalWord (lower word))).
Proof using K.
  clear SINGLE_PLAYER calculate_total_karma.
  cbv zeta. unfold WhitelistCmdGroup.add, WhitelistCmdGroup.remove,
    WhitelistCmdGroup.show, Bot.is_word_whitelisted.
  split; intros Hlegal; rewrite ?Hlegal; simpl; [|done].
  rewrite !words_of_server_spec.
  destruct db as [members used cache black white]. unfold set_whitelist. simpl.
  repeat split.
  - apply bool_decide_eq_true. set_solver.
  - set_solver.
  - apply bool_decide_eq_false. set_solver.
  - set_solver.
  - f_equal. set_solver.
  - intros Hnot%bool_decide_eq_false. f_equal. set_solver.
  - apply bool_decide_ext. set_solver.
  - apply bool_decide_ext. set_solver.
Qed.

(** The blacklist commands on a legal word: after [add] the word, in
    lower case, is in the blacklist of the server, so that
    [is_word_blacklisted] is true for it on that server, and it is shown;
    after [remove] it is not in the blacklist of the server and
    [is_word_blacklisted] falls back on the global lists; [add] twice is
    [add] once, and [remove] after [add] gives the database back when the
    word was not in the list before; no other entry and no other table is
    changed. A word with a character outside the alphabet changes
    nothing. *)
Theorem blacklist_commands (db : Bot.database) (guild : Z) (word : string) :
  let added := (BlacklistCmdGroup.add K db guild word).1 in
  let removed := (BlacklistCmdGroup.remove K db guild word).1 in
  (all_chars_in (POSSIBLE_CHARACTERS K) (lower word) = true →
     Bot.is_word_blacklisted K (lower word) (Some guild) (Some added) = true
     ∧ lower word ∈ BlacklistCmdGroup.show added guild
     ∧ Bot.is_word_blacklisted K (lower word) (Some guild) (Some removed)
       = Bot.globally_blacklisted K (lower word)
     ∧ (lower word ∉ BlacklistCmdGroup.show removed guild)
     ∧ (BlacklistCmdGroup.add K added guild word).1 = added
     ∧ ((guild, lower word) ∉ Bot.blacklist db →
        (BlacklistCmdGroup.remove K added guild word).1 = db)
     ∧ (∀ g w, (g, w) ≠ (guild, lower word) →
          Bot.is_word_blacklisted K w (Some g) (Some added)
          = Bot.is_word_blacklisted K w (Some g) (Some db)
          ∧ Bot.is_word_blacklisted K w (Some g) (Some removed)
            = Bot.is_word_blacklisted K w (Some g) (Some db))
     ∧ set_blacklist added (Bot.blacklist db) = db
     ∧ set_blacklist removed (Bot.blacklist db) = db)
  ∧ (all_chars_in (POSSIBLE_CHARACTERS K) (lower word) = false →
     BlacklistCmdGroup.add K db guild word = (db, NotALegalWord (lower word))
     ∧ BlacklistCmdGroup.remove K db guild word = (db, NotALegalWord (lower word))).
Proof using K.
  clear SINGLE_PLAYER calculate_total_karma.
  cbv zeta. unfold BlacklistCmdGroup.add, BlacklistCmdGroup.remove,
    BlacklistCmdGroup.show, Bot.is_word_blacklisted, Bot.globally_blacklisted.
  split; intros Hlegal; rewrite ?Hlegal; simpl; [|done].
  rewrite !words_of_server_spec.
  destruct db as [members used cache black white]. unfold set_blacklist. simpl.
  repeat split.
  - repeat case_match; try done. apply bool_decide_eq_true. set_solver.
  - set_solver.
  - repeat case_match; simpl; try done. apply bool_decide_eq_false. set_solver.
  - set_solver.
  - f_equal. set_solver.
  - intros Hnot. f_equal. set_solver.
  - repeat case_match; try done. apply bool_decide_ext. set_solver.
  - repeat case_match; try done. apply bool_decide_ext. set_solver.
Qed.

(** ** The lists in play *)

Lemma lower_length (s : string) : String.length (lower s) = String.length s.
Proof. induction s as [|c s IH]; simpl; [done|]. by rewrite IH. Qed.

(** A whitelisted word is neither rejected as blacklisted nor looked up. *)
Lemma whitelisted_word_passes (self : Bot.t) (msg : message) (future : http_result) :
  Bot.is_word_whitelisted (lower (content msg)) (guild_id msg) (Bot.SQL_ENGINE self)
  = true →
  let r := step self msg future in
  Bot.exit r ≠ Blacklisted ∧ Bot.exit r ≠ BackendFault
  ∧ (StartApiQuery (lower (content msg)) ∉ Bot.trace r).
Proof.
  intros Hwl. cbv zeta. unfold Bot.on_message. pipeline_state.
  rewrite !is_word_whitelisted_set_member, Hwl. simpl.
  unfold Bot.handle_mistake, Bot.accept.
  split_pipeline; pipeline_state; repeat split; try done; trace_facts.
Qed.

(** A submission that is blacklisted and not whitelisted stops there. *)
Lemma blacklisted_word_stops (self : Bot.t) (msg : message) (future : http_result) :
  is_submission K self msg →
  (2 ≤ String.length (lower (content msg)))%nat →
  Bot.is_word_whitelisted (lower (content msg)) (guild_id msg) (Bot.SQL_ENGINE self)
  = false →
  Bot.is_word_blacklisted K (lower (content msg)) (Some (guild_id msg))
    (Some (Bot.SQL_ENGINE self)) = true →
  let r := step self msg future in
  Bot.exit r = Blacklisted ∧ Bot._config (Bot.final r) = Bot._config self.
Proof.
  intros (Hself & Hchannel & Hchars) Hlength Hwl Hbl. cbv zeta.
  unfold Bot.on_message. pipeline_state.
  rewrite !is_word_whitelisted_set_member, !is_word_blacklisted_set_member.
  rewrite Hself, Hchannel, Hchars, Hwl, Hbl. simpl. rewrite Z.eqb_refl. simpl.
  destruct (String.length (lower (content msg))) as [|[|n]]; simpl; [lia|lia|done].
Qed.

(** What the list commands mean for the game. After [whitelist add] of a
    legal word, a submission of that word on the server, in any case, is
    never rejected as blacklisted and never looked up in the dictionary,
    also when the word is blacklisted on the server or globally. After
    [blacklist add] of a legal word that is not whitelisted on the
    server, every submission of it is rejected as blacklisted and leaves
    the chain as it is. *)
Theorem list_commands_in_play (self : Bot.t) (guild : Z) (word : string)
    (msg : message) (future : http_result) :
  all_chars_in (POSSIBLE_CHARACTERS K) (lower word) = true →
  (2 ≤ String.length word)%nat →
  is_submission K self msg →
  guild_id msg = guild →
  lower (content msg) = lower word →
  let db := Bot.SQL_ENGINE self in
  let whitelisted := Bot.set_SQL_ENGINE self (WhitelistCmdGroup.add K db guild word).1 in
  let blacklisted := Bot.set_SQL_ENGINE self (BlacklistCmdGroup.add K db guild word).1 in
  let both :=
    Bot.set_SQL_ENGINE self
      (WhitelistCmdGroup.add K (BlacklistCmdGroup.add K db guild word).1 guild word).1 in
  (Bot.exit (step whitelisted msg future) ≠ Blacklisted
   ∧ (StartApiQuery (lower word) ∉ Bot.trace (step whitelisted msg future)))
  ∧ (Bot.is_word_whitelisted (lower word) guild db = false →
     Bot.exit (step blacklisted msg future) = Blacklisted
     ∧ Bot._config (Bot.final (step blacklisted msg future)) = Bot._config self)
  ∧ Bot.exit (step both msg future) ≠ Blacklisted.
Proof.
  intros Hlegal Hlength Hsubmission Hguild Hword. cbv zeta.
  unfold WhitelistCmdGroup.add, BlacklistCmdGroup.add. rewrite Hlegal. simpl.
  split; [|split].
  - set (s := Bot.set_SQL_ENGINE self _).
    assert (Bot.is_word_whitelisted (lower (content msg)) (guild_id msg)
              (Bot.SQL_ENGINE s) = true) as Hwl.
    { unfold Bot.is_word_whitelisted. simpl.
      apply bool_decide_eq_true. rewrite Hguild, Hword. set_solver. }
    destruct (whitelisted_word_passes s msg future Hwl) as (Hexit & _ & Hquery).
    rewrite <- Hword. by split.
  - intros Hwl.
    apply (blacklisted_word_stops (Bot.set_SQL_ENGINE self _) msg future).
    + exact Hsubmission.
    + by rewrite Hword, lower_length.
    + by rewrite Hguild, Hword.
    + rewrite Hguild, Hword. unfold Bot.is_word_blacklisted. simpl.
      repeat case_match; try done. apply bool_decide_eq_true. set_solver.
  - eapply whitelisted_word_passes.
    unfold Bot.is_word_whitelisted. simpl.
    apply bool_decide_eq_true. rewrite Hguild, Hword. set_solver.
Qed.

(** ** The command [check_word] *)

Lemma not_blacklisted_on_server_not_globally (word : string) (guild : Z)
    (db : Bot.database) :
  Bot.is_word_blacklisted K word (Some guild) (Some db) = false →
  Bot.is_word_blacklisted K word None None = false.
Proof. unfold Bot.is_word_blacklisted. by repeat case_match. Qed.

Lemma add_to_cache_loop_refused (words : list string) (cache : gset string)
    (word : string) :
  word ∈ words →
  Bot.is_word_blacklisted K word None None = false →
  Bot.add_to_cache_loop K words cache = inl (CompileError ["words"]).
Proof.
  intros Hin Hword. induction words as [|w words IH]; simpl.
  - by apply elem_of_nil in Hin.
  - destruct (Bot.is_word_blacklisted K w None None) eqn:Hw; simpl; [|done].
    apply elem_of_cons in Hin as [-> | Hin]; [congruence | by apply IH].
Qed.

Lemma add_to_cache_refused (self : Bot.t) (pending : gset string) (word : string) :
  Bot._cached_words self = Some pending →
  word ∈ pending →
  Bot.is_word_blacklisted K word None None = false →
  Bot.add_to_cache K self
  = (Bot.set_cached_words self None, Some (CompileError ["words"])).
Proof.
  intros Hpending Hin Hword. unfold Bot.add_to_cache. rewrite Hpending.
  case_decide; [set_solver|]. simpl.
  rewrite (add_to_cache_loop_refused _ _ word); [done| |done].
  by apply elem_of_elements.
Qed.


(** What [check_word] leaves behind. It never changes the database. It
    fails to reply in exactly one case: a legal word of another length
    than one that is not whitelisted, blacklisted or cached and that the
    dictionary confirms; there the insert of [add_to_cache] is refused
    before the reply, and the pending cache words are dropped. The
    verdicts found in the whitelist, the blacklist or the cache are sent
    and followed by the failure of [conn.close()]. *)
Theorem check_word_replies (self : Bot.t) (guild : Z) (word : string)
    (future : http_result) :
  let r := check_word K self guild word future in
  let confirmed_by_dictionary :=
    all_chars_in (POSSIBLE_CHARACTERS K) (lower word) = true
    ∧ String.length word ≠ 1%nat
    ∧ Bot.is_word_whitelisted (lower word) guild (Bot.SQL_ENGINE self) = false
    ∧ Bot.is_word_blacklisted K (lower word) (Some guild) (Some (Bot.SQL_ENGINE self))
      = false
    ∧ Bot.is_word_in_cache (lower word) (Bot.SQL_ENGINE self) = false
    ∧ Bot.get_query_response future = Bot.API_RESPONSE_WORD_EXISTS in
  Bot.SQL_ENGINE (bot_after r) = Bot.SQL_ENGINE self
  ∧ Bot._config (bot_after r) = Bot._config self
  ∧ (replied r = false ↔ confirmed_by_dictionary)
  ∧ (confirmed_by_dictionary →
     description r = ValidWord
     ∧ raised r = Some (SQLAlchemyError (CompileError ["words"]))
     ∧ Bot._cached_words (bot_after r) = None)
  ∧ (¬ confirmed_by_dictionary →
     bot_after r = self
     ∧ (raised r = None ∨ raised r = Some (NameError "conn"))).
Proof using K.
  clear SINGLE_PLAYER calculate_total_karma.
  cbv zeta. unfold check_word.
  assert (∀ (P : Prop) (s : Bot.t) (v : verdict) (e : option python_error),
            (e = None ∨ e = Some (NameError "conn")) →
            ¬ P →
            Bot.SQL_ENGINE s = Bot.SQL_ENGINE s
            ∧ Bot._config s = Bot._config s
            ∧ (true = false ↔ P)
            ∧ (P → v = ValidWord
                   ∧ e = Some (SQLAlchemyError (CompileError ["words"]))
                   ∧ Bot._cached_words s = None)
            ∧ (¬ P → s = s ∧ (e = None ∨ e = Some (NameError "conn")))) as Hearly.
  { intros P s v e He HP. repeat split; try done; tauto. }
  destruct (all_chars_in _ _) eqn:Hchars; simpl.
  2: { apply Hearly; [by left|]. intros (? & _). congruence. }
  destruct (Nat.eqb_spec (String.length word) 1) as [Hone|Hone]; simpl.
  { apply Hearly; [by left|]. intros (_ & ? & _). congruence. }
  destruct (Bot.is_word_whitelisted _ _ _) eqn:Hwl; simpl.
  { apply Hearly; [by right|]. intros (_ & _ & ? & _). congruence. }
  destruct (Bot.is_word_blacklisted _ _ _ _) eqn:Hbl; simpl.
  { apply Hearly; [by right|]. intros (_ & _ & _ & ? & _). congruence. }
  destruct (Bot.is_word_in_cache _ _) eqn:Hcache; simpl.
  { apply Hearly; [by right|]. intros (_ & _ & _ & _ & ? & _). congruence. }
  destruct (get_query_response_range future) as [Hr | [Hr | Hr]]; rewrite Hr; simpl.
  2: { apply Hearly; [by left|]. intros (_ & _ & _ & _ & _ & Hexists).
       discriminate Hexists. }
  2: { apply Hearly; [by left|]. intros (_ & _ & _ & _ & _ & Hexists).
       discriminate Hexists. }
  erewrite (add_to_cache_refused _ _ (lower word)).
  - simpl.
    assert (true = true ∧ String.length word ≠ 1%nat ∧ false = false
            ∧ false = false ∧ false = false
            ∧ Bot.API_RESPONSE_WORD_EXISTS = Bot.API_RESPONSE_WORD_EXISTS)
      as Hconfirmed by done.
    split; [done|]. split; [done|]. split; [done|]. split; [done|].
    intros Hnot. by destruct Hnot.
  - simpl. reflexivity.
  - destruct (Bot._cached_words self); set_solver.
  - by eapply not_blacklisted_on_server_not_globally.
Qed.

(** ** The command [stats user] *)

Lemma count_members_le (guild : Z) (p : Member.t → bool)
    (members : gmap (Z * Z) Member.t) :
  (count_members guild p members ≤ count_members guild (λ _, true) members)%nat.
Proof.
  unfold count_members.
  induction (map_to_list members) as [|row rows IH]; simpl; [done|].
  destruct (bool_decide (row.1.1 = guild)); simpl; [|done].
  destruct (p row.2); simpl; lia.
Qed.

Lemma count_members_own (guild member_id : Z) (p : Member.t → bool)
    (members : gmap (Z * Z) Member.t) (row : Member.t) :
  members !! (guild, member_id) = Some row →
  p row = true →
  (1 ≤ count_members guild p members)%nat.
Proof.
  intros Hrow Hp. unfold count_members.
  apply elem_of_map_to_list, list_elem_of_In in Hrow.
  assert (In (guild, member_id, row)
            (List.filter (λ r : Z * Z * Member.t, bool_decide (r.1.1 = guild) && p r.2)
               (map_to_list members))) as Hin.
  { apply filter_In. split; [done|]. simpl. rewrite Hp.
    by rewrite bool_decide_eq_true_2. }
  destruct (List.filter _ _); [done | simpl; lia].
Qed.

Lemma count_members_one (guild member_id : Z) (p : Member.t → bool)
    (members : gmap (Z * Z) Member.t) (row : Member.t) :
  members !! (guild, member_id) = Some row →
  p row = true →
  (count_members guild p members = 1%nat
   ↔ ∀ other m, other ≠ member_id → members !! (guild, other) = Some m →
       p m = false).
Proof.
  intros Hrow Hp. unfold count_members.
  set (f := λ r : Z * Z * Member.t, bool_decide (r.1.1 = guild) && p r.2).
  assert (NoDup (List.filter f (map_to_list members))) as Hnodup.
  { apply NoDup_ListNoDup, List.NoDup_filter, NoDup_ListNoDup, NoDup_map_to_list. }
  assert ((guild, member_id, row) ∈ List.filter f (map_to_list members)) as Hown.
  { apply list_elem_of_In, filter_In. split.
    - by apply list_elem_of_In, elem_of_map_to_list.
    - unfold f. simpl. by rewrite Hp, bool_decide_eq_true_2. }
  split.
  - intros Hone other m Hother Hm.
    destruct (p m) eqn:Hpm; [|done]. exfalso.
    assert ((guild, other, m) ∈ List.filter f (map_to_list members)) as Hin.
    { apply list_elem_of_In, filter_In. split.
      - by apply list_elem_of_In, elem_of_map_to_list.
      - unfold f. simpl. by rewrite Hpm, bool_decide_eq_true_2. }
    destruct (List.filter f (map_to_list members)) as [|x [|y rest]];
      simpl in Hone; try lia.
    apply list_elem_of_singleton in Hown, Hin. congruence.
  - intros Hothers.
    destruct (List.filter f (map_to_list members)) as [|x [|y rest]] eqn:Hfilter.
    + by apply elem_of_nil in Hown.
    + done.
    + exfalso.
      assert (∀ z, z ∈ x :: y :: rest → z = (guild, member_id, row)) as Hall.
      { intros [[g other] m] Hz. rewrite <- Hfilter in Hz.
        apply list_elem_of_In, filter_In in Hz as [Hz Hf].
        apply list_elem_of_In, elem_of_map_to_list in Hz.
        unfold f in Hf. simpl in Hf.
        apply andb_true_iff in Hf as [Hg%bool_decide_eq_true Hpm]. subst g.
        destruct (decide (other = member_id)) as [->|Hne].
        - congruence.
        - rewrite (Hothers other m Hne Hz) in Hpm. discriminate. }
      apply NoDup_cons in Hnodup as [Hx _].
      apply Hx. rewrite (Hall x), <- (Hall y); set_solver.
Qed.

(** [stats user]. A member without a row is told that they never played.
    A row without a correct and without a wrong word makes the command
    fail with a division by zero. Otherwise the reply shows the row, the
    accuracy [correct / (correct + wrong)] and two positions between 1
    and the number of rows of the server: the number of members of the
    server whose score, or karma, is at least that of the member, who
    counts; the position by score is 1 exactly when every other member of
    the server has a smaller score. *)
Theorem stats_user_positions (db : Bot.database) (guild member_id : Z) :
  let reply := StatsCmdGroup.user db guild member_id in
  let rows := count_members guild (λ _, true) (Bot.member db) in
  (reply = NeverPlayed ↔ Bot.member db !! (guild, member_id) = None)
  ∧ (reply = UserZeroDivisionError ↔
     ∃ row, Bot.member db !! (guild, member_id) = Some row
            ∧ Member.correct row + Member.wrong row = 0)
  ∧ (∀ score pos_by_score karma pos_by_karma correct wrong accuracy,
       reply = UserStats score pos_by_score karma pos_by_karma correct wrong accuracy →
       Bot.member db !! (guild, member_id) = Some (Member.mk score correct wrong karma)
       ∧ (1 ≤ pos_by_score ≤ rows)%nat
       ∧ (1 ≤ pos_by_karma ≤ rows)%nat
       ∧ (pos_by_score = 1%nat ↔
          ∀ other m, other ≠ member_id →
            Bot.member db !! (guild, other) = Some m → Member.score m < score)
       ∧ correct + wrong ≠ 0
       ∧ accuracy = (inject_Z correct / inject_Z (correct + wrong))%Q).
Proof.
  cbv zeta. unfold StatsCmdGroup.user.
  destruct (Bot.member db !! (guild, member_id)) as [row|] eqn:Hrow.
  2: { split; [done|]. split; [|done]. split; [done|]. by intros (? & ? & _). }
  destruct (Z.eqb_spec (Member.correct row + Member.wrong row) 0) as [Hzero|Hsome].
  { split; [done|]. split; [|done]. split; [by exists row | done]. }
  split; [done|]. split.
  { split; [done|]. intros (row' & [= <-] & ?). done. }
  intros score pos_by_score karma pos_by_karma correct wrong accuracy
    [= <- <- <- <- <- <- <-].
  split; [by destruct row|].
  assert ((Member.score row <=? Member.score row) = true) as Hscore
    by by apply Z.leb_le.
  assert (Qle_bool (Member.karma row) (Member.karma row) = true) as Hkarma
    by (apply Qle_bool_iff, Qle_refl).
  split; [split; [by eapply count_members_own | apply count_members_le]|].
  split; [split; [by eapply count_members_own | apply count_members_le]|].
  split; [|done].
  rewrite (count_members_one guild member_id _ _ row Hrow Hscore).
  split; intros Hothers other m Hne Hm; specialize (Hothers other m Hne Hm).
  - by apply Z.leb_gt.
  - by apply Z.leb_gt.
Qed.

(** [stats user] for a player seen for the first time. After a word that
    was accepted or counted as a mistake the stats are shown, with an
    accuracy of one or of zero. After a submission that was rejected as
    blacklisted or repeated, or that met a fault of the dictionary, the
    player has a row without a correct and without a wrong word, and
    [stats user] fails with the division by zero. *)
Theorem stats_user_after_the_first_submission (self : Bot.t) (msg : message)
    (future : http_result) :
  Bot.member (Bot.SQL_ENGINE self) !! (guild_id msg, author_id msg) = None →
  let r := step self msg future in
  let reply :=
    StatsCmdGroup.user (Bot.SQL_ENGINE (Bot.final r)) (guild_id msg) (author_id msg) in
  (Bot.exit r = Ignored ∨ Bot.exit r = SingleLetter → reply = NeverPlayed)
  ∧ (Bot.exit r = Blacklisted ∨ Bot.exit r = Repeated ∨ Bot.exit r = BackendFault →
     reply = UserZeroDivisionError)
  ∧ (Bot.exit r = Accepted →
     ∃ pos_by_score karma pos_by_karma,
       reply = UserStats 1 pos_by_score karma pos_by_karma 1 0 (1 / 1))
  ∧ (Bot.exit r = Mistake →
     ∃ pos_by_score karma pos_by_karma,
       reply = UserStats (-1) pos_by_score karma pos_by_karma 0 1 (0 / 1)).
Proof.
  intros Hnew. cbv zeta. unfold StatsCmdGroup.user.
  destruct (on_message_outcome K SINGLE_PLAYER calculate_total_karma self msg future)
    as [ | | ev _ _ | ev _ _ | ev _ | ev _ _ | response ev _ | ev _ ].
  1,2: simpl; rewrite Hnew; repeat split; try done;
       try (intros [?|[?|?]]; discriminate); intros ?; discriminate.
  1,2,4: unfold left, entered; pipeline_state;
         rewrite add_user_lookup_author, Hnew; simpl;
         repeat split; try done; try (intros [?|?]; discriminate);
         intros ?; discriminate.
  - simpl. repeat split; try (intros [?|?]; discriminate);
      try (intros [?|[?|?]]; discriminate); intros ?; discriminate.
  - rewrite handle_mistake_exit.
    destruct (handle_mistake_frame (entered self msg) msg response ev)
      as (_ & _ & _ & _ & Hmember & _).
    cbv zeta in Hmember. rewrite Hmember.
    unfold entered. pipeline_state.
    rewrite lookup_alter_eq, add_user_lookup_author, Hnew. simpl.
    repeat split; try (intros [?|?]; discriminate);
      try (intros [?|[?|?]]; discriminate); try (intros ?; discriminate).
    intros _. by eexists _, _, _.
  - rewrite accept_exit.
    destruct (accept_frame (entered self msg) msg (lower (content msg)) ev)
      as (_ & _ & _ & _ & Hmember & _).
    cbv zeta in Hmember. rewrite Hmember.
    unfold entered. pipeline_state.
    rewrite lookup_alter_eq, add_user_lookup_author, Hnew. simpl.
    repeat split; try (intros [?|?]; discriminate);
      try (intros [?|[?|?]]; discriminate); try (intros ?; discriminate).
    intros _. by eexists _, _, _.
Qed.

(** ** The command [prune] *)

Lemma member_ids_spec (guild user_id : Z) (members : gmap (Z * Z) Member.t) :
  user_id ∈ member_ids guild members ↔ is_Some (members !! (guild, user_id)).
Proof.
  unfold member_ids. rewrite list_elem_of_fmap. split.
  - intros ([g u] & -> & Hkey). apply list_elem_of_fmap in Hkey.
    destruct Hkey as ([[g' u'] m] & Hkey & Hin). simpl in Hkey.
    injection Hkey as <- <-.
    apply list_elem_of_In, filter_In in Hin as [Hin Hg].
    apply bool_decide_eq_true in Hg. simpl in *. subst g.
    apply list_elem_of_In, elem_of_map_to_list in Hin. by eexists.
  - intros [m Hm]. exists (guild, user_id). split; [done|].
    apply list_elem_of_fmap. exists (guild, user_id, m). split; [done|].
    apply list_elem_of_In, filter_In. split.
    + by apply list_elem_of_In, elem_of_map_to_list.
    + by apply bool_decide_eq_true.
Qed.

Lemma prune_loop_lookup (guild : Z) (get_member : Z → bool) (data : list Z)
    (members : gmap (Z * Z) Member.t) (count : nat) (key : Z * Z) :
  (prune_loop guild get_member data members count).1 !! key
  = if decide (key.1 = guild ∧ key.2 ∈ data ∧ get_member key.2 = false)
    then None else members !! key.
Proof.
  revert members count. induction data as [|user_id data IH]; intros members count;
    simpl.
  - case_decide as H; [|done]. destruct H as (_ & ?%elem_of_nil & _). done.
  - destruct (get_member user_id) eqn:Hget; rewrite IH.
    + apply decide_ext. rewrite elem_of_cons. split.
      * intros (? & ? & ?). auto.
      * intros (? & [Heq|?] & Hgone); [|done]. rewrite Heq in Hgone. congruence.
    + destruct (decide (key = (guild, user_id))) as [->|Hkey].
      * rewrite lookup_delete_eq. simpl.
        rewrite (decide_True (P := _ ∧ user_id ∈ user_id :: data ∧ _));
          [|set_solver]. by destruct (decide _).
      * rewrite lookup_delete_ne; [|congruence]. apply decide_ext.
        rewrite elem_of_cons. split.
        -- intros (? & ? & ?). auto.
        -- intros (? & [Heq|?] & Hgone); [|done]. exfalso. apply Hkey.
           destruct key; simpl in *; congruence.
Qed.

Lemma prune_loop_count (guild : Z) (get_member : Z → bool) (data : list Z)
    (members : gmap (Z * Z) Member.t) (count : nat) :
  (prune_loop guild get_member data members count).2
  = (count + List.length (List.filter (λ u, negb (get_member u)) data))%nat.
Proof.
  revert members count. induction data as [|user_id data IH]; intros members count;
    simpl; [lia|].
  destruct (get_member user_id); simpl; rewrite IH; lia.
Qed.

Lemma prune_loop_size (guild : Z) (get_member : Z → bool) (data : list Z)
    (members : gmap (Z * Z) Member.t) (count : nat) :
  NoDup data →
  (∀ u, u ∈ data → is_Some (members !! (guild, u))) →
  (size members + count
   = size (prune_loop guild get_member data members count).1
     + (prune_loop guild get_member data members count).2)%nat.
Proof.
  revert members count. induction data as [|user_id data IH];
    intros members count Hnodup Hrows; simpl; [done|].
  apply NoDup_cons in Hnodup as [Hfresh Hnodup].
  destruct (get_member user_id).
  - apply IH; [done|]. intros u Hu. apply Hrows. set_solver.
  - rewrite <- IH; [|done|].
    + destruct (Hrows user_id) as [m Hm]; [set_solver|].
      pose proof (map_size_delete_Some (guild, user_id) members (mk_is_Some _ _ Hm)).
      assert (size members ≠ 0%nat).
      { intros Hempty%map_size_empty_inv. by rewrite Hempty in Hm. }
      lia.
    + intros u Hu. rewrite lookup_delete_ne; [apply Hrows; set_solver|].
      intros [= <-]. done.
Qed.

Lemma member_ids_NoDup (guild : Z) (members : gmap (Z * Z) Member.t) :
  NoDup (member_ids guild members).
Proof.
  unfold member_ids. rewrite <- list_fmap_compose.
  apply NoDup_fmap_2_strong.
  - intros [[g u] m] [[g' u'] m'] Hin Hin' Hid. simpl in Hid. subst u'.
    apply list_elem_of_In, filter_In in Hin as [Hin Hg].
    apply list_elem_of_In, filter_In in Hin' as [Hin' Hg'].
    apply bool_decide_eq_true in Hg, Hg'. simpl in Hg, Hg'. subst g g'.
    apply list_elem_of_In, elem_of_map_to_list in Hin, Hin'. congruence.
  - apply (sublist_NoDup _ (map_to_list members)); [apply NoDup_map_to_list|].
    induction (map_to_list members) as [|row rows IH]; simpl.
    + constructor.
    + case_match; by constructor.
Qed.

(** [prune] deletes exactly the rows of the server whose user the guild
    no longer has: every other row, the rows of other servers and the
    other tables stay as they are. It finds no users exactly when the
    server has no row, and it reports the number of deleted rows, which
    is the number by which the table shrinks. *)
Theorem prune_removes_the_absent_members (db : Bot.database) (guild : Z)
    (get_member : Z → bool) :
  let r := prune db guild get_member in
  (∀ g u, Bot.member r.1 !! (g, u)
          = if decide (g = guild ∧ get_member u = false)
            then None else Bot.member db !! (g, u))
  ∧ Bot.set_member r.1 (Bot.member db) = db
  ∧ (r.2 = NoUsersFound ↔ ∀ u, Bot.member db !! (guild, u) = None)
  ∧ (r.2 = NoUsersMetTheCriteria → r.1 = db)
  ∧ (∀ n, r.2 = RemovedDataFor n →
       (1 ≤ n)%nat ∧ size (Bot.member db) = (size (Bot.member r.1) + n)%nat).
Proof.
  cbv zeta. unfold prune.
  pose proof (member_ids_spec guild) as Hspec.
  pose proof (prune_loop_count guild get_member (member_ids guild (Bot.member db))
                (Bot.member db) 0) as Hcount.
  pose proof (prune_loop_size guild get_member (member_ids guild (Bot.member db))
                (Bot.member db) 0 (member_ids_NoDup _ _)
                (λ u Hu, proj1 (Hspec u (Bot.member db)) Hu)) as Hsize.
  pose proof (prune_loop_lookup guild get_member (member_ids guild (Bot.member db))
                (Bot.member db) 0) as Hlookup.
  destruct (member_ids guild (Bot.member db)) as [|user_id data] eqn:Hdata.
  - assert (∀ u, Bot.member db !! (guild, u) = None) as Hnone.
    { intros u. apply eq_None_not_Some. rewrite <- Hspec, Hdata. set_solver. }
    simpl. split; [|split; [by destruct db|split; [done|split; [done|done]]]].
    intros g u. case_decide as H; [|done]. destruct H as [-> _]. apply Hnone.
  - set (pruned := prune_loop guild get_member (user_id :: data) (Bot.member db) 0) in *.
    destruct (Nat.ltb_spec 0 pruned.2) as [Hsome|Hnone]; simpl.
    + split.
      { intros g u. rewrite Hlookup. simpl.
        destruct (decide (g = guild ∧ get_member u = false)) as [[-> Hgone]|Hno].
        - destruct (decide (guild = guild ∧ u ∈ user_id :: data
                            ∧ get_member u = false)) as [|Hnotin]; [done|].
          apply eq_None_not_Some. intros Hrow.
          apply Hnotin. repeat split; try done.
          rewrite <- Hdata. by apply Hspec.
        - rewrite decide_False; [done|]. intros (? & _ & ?). by apply Hno. }
      split; [by destruct db|]. split.
      { split; [done|]. intros Hnone. exfalso.
        assert (user_id ∈ member_ids guild (Bot.member db)) as Hin
          by (rewrite Hdata; set_solver).
        apply Hspec in Hin as [m Hm]. by rewrite Hnone in Hm. }
      split; [done|]. intros n [= <-]. split; [lia|]. lia.
    + split.
      { intros g u. case_decide as H; [|done]. destruct H as [-> Habsent].
        apply eq_None_not_Some. intros Hrow.
        apply Hspec in Hrow. rewrite Hdata in Hrow.
        assert (u ∈ List.filter (λ u, negb (get_member u)) (user_id :: data)) as Hin.
        { apply list_elem_of_In, filter_In. split; [by apply list_elem_of_In|].
          by rewrite Habsent. }
        destruct (List.filter _ (user_id :: data)); [by apply elem_of_nil in Hin|].
        simpl in Hcount. lia. }
      split; [by destruct db|]. split; [|done].
      split; [done|]. intros Hnone'. exfalso.
      assert (user_id ∈ member_ids guild (Bot.member db)) as Hin
        by (rewrite Hdata; set_solver).
      apply Hspec in Hin as [m Hm]. by rewrite Hnone' in Hm.
Qed.

(** ** The command [set_channel] *)

(** [set_channel] takes the configuration from the file, not from the
    bot: without the permission nothing changes; with it the bot and the
    file end with the configuration of the file (the defaults when there
    is none) and the new channel, whatever the bot had in memory. So when
    a word was accepted after the file was written, [set_channel] takes
    the count and the current word back to those of the file, while the
    word stays recorded as used. *)
Theorem set_channel_reverts_to_the_file (self : Bot.t) (msg : message)
    (future : http_result) (channel : Z) (file : option Config.t) :
  let r := step self msg future in
  let after := Bot.final r in
  let s := set_channel true channel after (Some (Bot._config self)) in
  let c := Bot._config self in
  set_channel false channel self file = (self, file, NoPermission)
  ∧ set_channel true channel self file
    = (Bot.set_config self
         (ConfigFile.set_channel_id (default Config.default file) (Some channel)),
       Some (ConfigFile.set_channel_id (default Config.default file) (Some channel)),
       ChannelWasSet channel)
  ∧ (Bot.exit r = Accepted →
       Config.current_count (Bot._config after) = Config.current_count c + 1
       ∧ Config.current_word (Bot._config after) = Some (lower (content msg))
       ∧ Config.current_count (Bot._config s.1.1) = Config.current_count c
       ∧ Config.current_word (Bot._config s.1.1) = Config.current_word c
       ∧ Config.channel_id (Bot._config s.1.1) = Some channel
       ∧ s.1.2 = Some (Bot._config s.1.1)
       ∧ (guild_id msg, lower (content msg)) ∈ Bot.used_words (Bot.SQL_ENGINE s.1.1)).
Proof.
  cbv zeta. split; [done|]. split; [by destruct file|].
  destruct (on_message_outcome K SINGLE_PLAYER calculate_total_karma self msg future)
    as [ | | ev _ _ | ev _ _ | ev _ | ev _ _ | response ev _ | ev _ ];
    try (simpl; intros ?; discriminate).
  intros _.
  destruct (accept_chain (entered self msg) msg
              (lower (content msg)) ev)
    as (_ & Hcount & Hword & _).
  split; [exact Hcount|]. split; [exact Hword|].
  unfold set_channel, ConfigFile.read_config. simpl.
  repeat split; try done.
  unfold Bot.accept, entered. pipeline_state. set_solver.
Qed.

End Rules.

(** ** The command [leaderboard] *)

Section LeaderboardFacts.
Context {V : Type} (ranking : list (Z * V)) (available : Z → bool).

Lemma fill_with_users_body (offset limit : nat)
    (description : list (leaderboard_line V)) :
  fill_with_users ranking available offset limit description
  = match select_ranked ranking limit offset with
    | [] => if (offset =? 0)%nat && (limit =? 10)%nat then [NoUsersHavePlayed]
            else description
    | data =>
        let r := add_users available (enumerate 1 data) description 0 in
        if (0 <? r.2)%nat
        then fill_with_users ranking available (offset + limit) r.2 r.1
        else r.1
    end.
Proof.
  rewrite fill_with_users_equation_1.
  assert (∀ row rows Hdata (s : {b | add_users available (enumerate 1 (row :: rows))
                                        description 0 = b}),
            fill_with_users_unfold_clause_1_clause_2 ranking available offset limit
              row rows Hdata description s
            = if (0 <? (proj1_sig s).2)%nat
              then fill_with_users ranking available (offset + limit)
                     (proj1_sig s).2 (proj1_sig s).1
              else (proj1_sig s).1) as Hinner.
  { by intros row rows Hdata [[description' unavailable_users] Hloop]. }
  assert (∀ s : {b | select_ranked ranking limit offset = b},
            fill_with_users_unfold_clause_1 ranking available offset limit s description
            = match proj1_sig s with
              | [] => if (offset =? 0)%nat && (limit =? 10)%nat
                      then [NoUsersHavePlayed] else description
              | data =>
                  let r := add_users available (enumerate 1 data) description 0 in
                  if (0 <? r.2)%nat
                  then fill_with_users ranking available (offset + limit) r.2 r.1
                  else r.1
              end) as Houter.
  { intros [[|row rows] Hdata]; unfold fill_with_users_unfold_clause_1;
      [done|]. by rewrite Hinner. }
  apply Houter.
Qed.

Lemma add_users_spec (data : list (Z * V)) (start : nat)
    (description : list (leaderboard_line V)) (unavailable_users : nat) :
  add_users available (enumerate start data) description unavailable_users
  = ((description ++ found available start data)%list,
     (unavailable_users + missing available data)%nat).
Proof.
  revert start description unavailable_users.
  induction data as [|[member_id value] data IH];
    intros start description unavailable_users; unfold found, missing; simpl.
  - by rewrite app_nil_r, Nat.add_0_r.
  - destruct (available member_id); simpl; rewrite IH; unfold found, missing.
    + by rewrite <- app_assoc.
    + f_equal. lia.
Qed.

Lemma line_rows_app (a b : list (leaderboard_line V)) :
  line_rows (a ++ b)%list = (line_rows a ++ line_rows b)%list.
Proof. apply omap_app. Qed.

Lemma line_rows_found (start : nat) (data : list (Z * V)) :
  line_rows (found available start data)
  = List.filter (λ row : Z * V, available row.1) data.
Proof.
  revert start. induction data as [|[member_id value] data IH]; intros start;
    unfold found; simpl; [done|].
  destruct (available member_id); simpl.
  - unfold line_rows. simpl. f_equal. apply IH.
  - apply IH.
Qed.

Lemma found_labels (start : nat) (data : list (Z * V)) (line : leaderboard_line V) :
  line ∈ found available start data →
  ∃ i member_id value, line = Entry i member_id value
    ∧ (start ≤ i < start + List.length data)%nat
    ∧ data !! (i - start)%nat = Some (member_id, value)
    ∧ available member_id = true.
Proof.
  revert start. induction data as [|[member_id value] data IH]; intros start;
    unfold found; simpl.
  - by intros ?%elem_of_nil.
  - destruct (available member_id) eqn:Hfound; simpl.
    + intros [->|Hin]%elem_of_cons.
      * exists start, member_id, value. rewrite Nat.sub_diag. repeat split; try done; lia.
      * destruct (IH _ Hin) as (i & m & v & -> & Hi & Hrow & Hm).
        exists i, m, v. repeat split; try done; try lia.
        replace (i - start)%nat with (S (i - S start)) by lia. done.
    + intros Hin. destruct (IH _ Hin) as (i & m & v & -> & Hi & Hrow & Hm).
      exists i, m, v. repeat split; try done; try lia.
      replace (i - start)%nat with (S (i - S start)) by lia. done.
Qed.

Lemma found_all_available (start : nat) (data : list (Z * V)) :
  missing available data = 0%nat →
  found available start data
  = (λ e : nat * (Z * V), Entry e.1 e.2.1 e.2.2) <$> enumerate start data.
Proof.
  revert start. induction data as [|[member_id value] data IH]; intros start;
    unfold found, missing; simpl; [done|].
  destruct (available member_id); simpl; [|done].
  intros Hnone. f_equal. by apply IH.
Qed.

Lemma missing_found_length (data : list (Z * V)) :
  (missing available data
   + List.length (List.filter (λ row : Z * V, available row.1) data))%nat
  = List.length data.
Proof.
  unfold missing. induction data as [|[member_id value] data IH]; simpl; [done|].
  destruct (available member_id); simpl; lia.
Qed.

Lemma take_filter_batch {A : Type} (p : A → bool) (limit : nat) (l : list A) :
  take limit (List.filter p l)
  = (List.filter p (take limit l)
     ++ take (limit - List.length (List.filter p (take limit l)))
          (List.filter p (drop limit l)))%list.
Proof.
  rewrite <- (take_drop limit l) at 1. rewrite List.filter_app.
  assert (List.length (List.filter p (take limit l)) ≤ limit)%nat.
  { etransitivity; [apply List.filter_length_le|]. rewrite length_take. lia. }
  rewrite take_app. rewrite take_ge by done. done.
Qed.

Lemma fill_with_users_later (n offset limit : nat)
    (description : list (leaderboard_line V)) :
  (List.length ranking - offset < n)%nat →
  (0 < offset)%nat →
  ∃ rest,
    fill_with_users ranking available offset limit description
    = (description ++ rest)%list
    ∧ line_rows rest
      = take limit (List.filter (λ row : Z * V, available row.1) (drop offset ranking))
    ∧ ∀ line, line ∈ rest →
        ∃ i member_id value, line = Entry i member_id value ∧ (1 ≤ i ≤ limit)%nat.
Proof.
  revert offset limit description.
  induction n as [|n IH]; intros offset limit description Hfuel Hlater; [lia|].
  rewrite fill_with_users_body.
  pose proof (take_filter_batch (λ row : Z * V, available row.1) limit
                (drop offset ranking)) as Hbatch.
  pose proof (select_ranked_progress ranking offset limit) as Hprogress.
  unfold select_ranked in *.
  destruct (take limit (drop offset ranking)) as [|row rows] eqn:Hdata.
  - replace (offset =? 0)%nat with false by (symmetry; apply Nat.eqb_neq; lia).
    exists []. rewrite app_nil_r. split; [done|]. split.
    + rewrite Hbatch. simpl.
      destruct limit as [|limit]; [done|].
      destruct (drop offset ranking); [|done]. by rewrite drop_nil.
    + by intros line ?%elem_of_nil.
  - set (data := row :: rows) in *.
    cbv zeta. rewrite add_users_spec. simpl fst. simpl snd.
    assert (List.length data ≤ limit)%nat as Hlen
      by (rewrite <- Hdata, length_take; lia).
    pose proof (missing_found_length data) as Hcount.
    assert ((List.length data < limit)%nat
            → drop limit (drop offset ranking) = []) as Hend.
    { intros Hshort. apply drop_ge. rewrite <- Hdata, length_take in Hshort. lia. }
    destruct (Nat.ltb_spec 0 (missing available data)) as [Hmissing|Hnone].
    + destruct (IH (offset + limit)%nat (missing available data)
                  (description ++ found available 1 data)%list) as (rest & -> & Hrows & Hlabels).
      { specialize (Hprogress row rows eq_refl). lia. }
      { lia. }
      exists (found available 1 data ++ rest)%list. split; [by rewrite app_assoc|]. split.
      * rewrite line_rows_app, line_rows_found, Hrows, Hbatch. f_equal.
        rewrite <- drop_drop.
        destruct (decide (List.length data = limit)) as [Hfull|Hshort].
        -- f_equal. lia.
        -- rewrite Hend by lia. simpl. by rewrite !take_nil.
      * intros line [Hin|Hin]%elem_of_app.
        -- destruct (found_labels _ _ _ Hin) as (i & m & v & -> & Hi & _).
           exists i, m, v. split; [done|]. lia.
        -- destruct (Hlabels _ Hin) as (i & m & v & -> & Hi).
           exists i, m, v. split; [done|]. lia.
    + exists (found available 1 data). split; [done|]. split.
      * rewrite line_rows_found, Hbatch.
        destruct (decide (List.length data = limit)) as [Hfull|Hshort].
        -- replace (limit - _)%nat with 0%nat by lia. by rewrite take_0, app_nil_r.
        -- rewrite Hend by lia. simpl. by rewrite take_nil, app_nil_r.
      * intros line Hin.
        destruct (found_labels _ _ _ Hin) as (i & m & v & -> & Hi & _).
        exists i, m, v. split; [done|]. lia.
Qed.

End LeaderboardFacts.

(** The leaderboard shows the first ten users of the ranking that are
    still in the server, in the order of the ranking, and the warning
    exactly when the server has no row. The users found among the first
    ten rows are numbered by their rank; for every user not found, one
    more row is fetched, and the users found there are numbered again
    from 1, not by their rank. *)
Theorem leaderboard_shows_the_first_ten_found {V : Type} (ranking : list (Z * V))
    (available : Z → bool) :
  let board := leaderboard ranking available in
  let first := take 10 ranking in
  let found_rows := List.filter (λ row : Z * V, available row.1) in
  (ranking = [] → board = [NoUsersHavePlayed])
  ∧ (ranking ≠ [] →
       line_rows board = take 10 (found_rows ranking)
       ∧ ∃ rest,
           board = (found available 1 first ++ rest)%list
           ∧ line_rows rest
             = take (missing available first) (found_rows (drop 10 ranking))
           ∧ ∀ line, line ∈ rest →
               ∃ i member_id value,
                 line = Entry i member_id value
                 ∧ (1 ≤ i ≤ missing available first)%nat)
  ∧ (∀ line, line ∈ found available 1 first →
       ∃ i member_id value,
         line = Entry i member_id value
         ∧ ranking !! (i - 1)%nat = Some (member_id, value)
         ∧ (1 ≤ i ≤ 10)%nat).
Proof.
  cbv zeta. unfold leaderboard. rewrite fill_with_users_body.
  unfold select_ranked. rewrite drop_0. split; [|split].
  - by intros ->.
  - intros Hrows.
    pose proof (take_filter_batch (λ row : Z * V, available row.1) 10 ranking) as Hbatch.
    pose proof (missing_found_length available (take 10 ranking)) as Hcount.
    assert (List.length (take 10 ranking) ≤ 10)%nat as Hlen
      by (rewrite length_take; lia).
    assert ((List.length (take 10 ranking) < 10)%nat → drop 10 ranking = []) as Hend.
    { intros Hshort. apply drop_ge. rewrite length_take in Hshort. lia. }
    destruct (take 10 ranking) as [|row rows] eqn:Hdata;
      [by destruct ranking|].
    set (data := row :: rows) in *.
    cbv zeta. rewrite add_users_spec. simpl fst. simpl snd.
    assert (∃ rest,
              (if (0 <? missing available data)%nat
               then fill_with_users ranking available 10 (missing available data)
                      (found available 1 data)
               else found available 1 data)
              = (found available 1 data ++ rest)%list
              ∧ line_rows rest
                = take (missing available data)
                    (List.filter (λ row : Z * V, available row.1) (drop 10 ranking))
              ∧ ∀ line, line ∈ rest →
                  ∃ i member_id value,
                    line = Entry i member_id value
                    ∧ (1 ≤ i ≤ missing available data)%nat) as (rest & Hboard & Hrest & Hlabels).
    { destruct (Nat.ltb_spec 0 (missing available data)) as [Hmissing|Hnone].
      - apply (fill_with_users_later ranking available (S (List.length ranking)));
          lia.
      - exists []. rewrite app_nil_r. split; [done|].
        replace (missing available data) with 0%nat by lia. split; [done|].
        by intros line ?%elem_of_nil. }
    simpl "+"%nat. rewrite Hboard. split; [|by exists rest].
    rewrite line_rows_app, line_rows_found, Hrest, Hbatch. f_equal.
    destruct (decide (List.length data = 10%nat)) as [Hfull|Hshort].
    + f_equal. lia.
    + rewrite Hend by lia. simpl. by rewrite !take_nil.
  - intros line Hin.
    destruct (found_labels _ _ _ _ Hin) as (i & m & v & -> & Hi & Hrow & _).
    exists i, m, v. split; [done|].
    rewrite length_take in Hi. split; [|lia].
    rewrite lookup_take_lt in Hrow by lia. done.
Qed.

(** * The further properties at work on the example game *)

Lemma elephant_obeys_the_rules :
  let msg := Game.says 2 "elephant" in
  let r := Game.on_message Game.bot msg HttpTimeout in
  Bot.exit r = Accepted
  ∧ is_submission Game.K Game.bot msg
  ∧ ((9, "elephant") ∉ Bot.used_words Game.db)
  ∧ Config.current_member_id Game.config ≠ Some 2
  ∧ first_char "elephant" = Config.current_word Game.config ≫= last_char.
Proof.
  assert (Bot.exit (Game.on_message Game.bot (Game.says 2 "elephant") HttpTimeout)
          = Accepted) as Hexit by (by vm_compute).
  split; [exact Hexit|].
  destruct (accepted_word_obeys_the_rules Game.K false Game.karma Game.bot
              (Game.says 2 "elephant") HttpTimeout Hexit)
    as (Hsubmission & _ & Hnew & Hturn & Hletter & _).
  split; [exact Hsubmission|]. split; [exact Hnew|].
  split; [by apply Hturn|]. by apply Hletter.
Defined.

Lemma elephant_advances_the_chain :
  let r := Game.on_message Game.bot (Game.says 2 "elephant") HttpTimeout in
  Bot.exit r = Accepted
  ∧ Config.current_count (Bot._config (Bot.final r)) = 4 + 1
  ∧ Config.current_word (Bot._config (Bot.final r)) = Some "elephant"
  ∧ Config.current_member_id (Bot._config (Bot.final r)) = Some 2
  ∧ Bot._busy (Bot.final r) = 0 + 1.
Proof.
  assert (Bot.exit (Game.on_message Game.bot (Game.says 2 "elephant") HttpTimeout)
          = Accepted) as Hexit by (by vm_compute).
  split; [exact Hexit|].
  destruct (accepted_word_advances_the_chain Game.K false Game.karma Game.bot
              (Game.says 2 "elephant") HttpTimeout Hexit)
    as (Hcount & Hword & Hmember & _ & _ & _ & _ & _ & Hbusy & _).
  by repeat split.
Defined.

Lemma tiger_is_penalised :
  let r := Game.on_message Game.bot (Game.says 2 "tiger") HttpTimeout in
  Bot.exit r = Mistake
  ∧ Bot.member (Bot.SQL_ENGINE (Bot.final r)) !! (9, 2)
    = Some (Bot.penalize Game.K (player_stats Game.db 9 2))
  ∧ Config.failed_member_id (Bot._config (Bot.final r)) = Some 2
  ∧ Bot.used_words (Bot.SQL_ENGINE (Bot.final r)) = Bot.used_words Game.db.
Proof.
  assert (Bot.exit (Game.on_message Game.bot (Game.says 2 "tiger") HttpTimeout)
          = Mistake) as Hexit by (by vm_compute).
  split; [exact Hexit|].
  destruct (mistake_penalises_the_author Game.K false Game.karma Game.bot
              (Game.says 2 "tiger") HttpTimeout Hexit)
    as (Hrow & Hfailed & _ & _ & _ & Hused & _).
  by repeat split.
Defined.

Lemma elephant_is_never_played_again :
  let r := Game.on_message Game.bot (Game.says 2 "elephant") HttpTimeout in
  let later :=
    Bot.run Game.K false Game.karma (Bot.final r)
      [(Game.says 1 "tiger", HttpTimeout); (Game.says 2 "eagle", Play.eagle_exists)] in
  let again := Game.on_message later (Game.says 3 "Elephant") HttpTimeout in
  Bot.exit r = Accepted
  ∧ lower "Elephant" = lower "elephant"
  ∧ Bot.exit again ≠ Accepted
  ∧ Bot.exit again ≠ Mistake.
Proof.
  assert (Bot.exit (Game.on_message Game.bot (Game.says 2 "elephant") HttpTimeout)
          = Accepted) as Hexit by (by vm_compute).
  split; [exact Hexit|]. split; [reflexivity|].
  destruct (accepted_word_is_never_played_again Game.K false Game.karma Game.bot
              (Game.says 2 "elephant") HttpTimeout
              [(Game.says 1 "tiger", HttpTimeout); (Game.says 2 "eagle", Play.eagle_exists)]
              (Game.says 3 "Elephant") HttpTimeout Hexit eq_refl eq_refl)
    as (Haccepted & Hmistake & _).
  by split.
Defined.

Lemma books_balanced_in_play :
  books_balanced Play.crowd
  ∧ books_balanced
      (Bot.SQL_ENGINE
         (Bot.run Game.K false Game.karma
            (Bot.set_SQL_ENGINE Game.bot Play.crowd)
            [(Game.says 2 "elephant", HttpTimeout);
             (Game.says 1 "apple", HttpTimeout);
             (Game.says 3 "x-ray", HttpTimeout)])).
Proof.
  assert (books_balanced Play.crowd) as Hbooks.
  { intros key m Hrow. apply elem_of_map_to_list in Hrow. revert Hrow.
    vm_compute map_to_list.
    rewrite !elem_of_cons. intros [Hrow|[Hrow|[Hrow|Hrow%elem_of_nil]]];
      try done; injection Hrow as _ ->; by vm_compute. }
  split; [exact Hbooks|].
  apply (score_is_correct_minus_wrong Game.K false Game.karma
           (Bot.set_SQL_ENGINE Game.bot Play.crowd) _ Hbooks).
Defined.

Lemma history_bounded_in_play :
  let inputs := [(Game.says 2 "tiger", HttpTimeout);
                 (Game.says 1 "a", HttpTimeout)] in
  let later := Bot.run Game.K false Game.karma Game.bot inputs in
  let r := Game.on_message later (Game.says 3 "eagle") Play.eagle_exists in
  history_bounded Game.K Game.bot
  ∧ Bot.exit r = Accepted
  ∧ (0 < HISTORY_LENGTH Game.K)%nat
  ∧ history_bounded Game.K later
  ∧ ∃ words, Bot._history (Bot.final r) !! 3 = Some words
             ∧ last words = Some "eagle"
             ∧ (List.length words ≤ 5)%nat.
Proof.
  assert (history_bounded Game.K Game.bot) as Hbounded.
  { intros author words Hrow. simpl in Hrow. by apply lookup_empty_Some in Hrow. }
  split; [exact Hbounded|]. split; [by vm_compute|]. split; [simpl; lia|].
  destruct (history_stays_bounded Game.K false Game.karma Game.bot
              [(Game.says 2 "tiger", HttpTimeout);
               (Game.says 1 "a", HttpTimeout)] Hbounded)
    as [Hlater Hlast].
  split; [exact Hlater|].
  apply (Hlast (Game.says 3 "eagle") Play.eagle_exists).
  - by vm_compute.
  - simpl. lia.
Defined.

Lemma karma_is_earned_in_play :
  let later :=
    Bot.run Game.K false Game.karma (Bot.set_SQL_ENGINE Game.bot Play.crowd)
      [(Game.says 2 "elephant", HttpTimeout); (Game.says 1 "apple", HttpTimeout)] in
  (0 <= MISTAKE_PENALTY Game.K)%Q
  ∧ karma_is_earned Play.crowd
  ∧ karma_is_earned (Bot.SQL_ENGINE later).
Proof.
  assert (0 <= MISTAKE_PENALTY Game.K)%Q as Hpenalty by (by vm_compute).
  assert (karma_is_earned Play.crowd) as Hearned.
  { intros key m Hrow. apply elem_of_map_to_list in Hrow. revert Hrow.
    vm_compute map_to_list.
    rewrite !elem_of_cons. intros [Hrow|[Hrow|[Hrow|Hrow%elem_of_nil]]];
      try done; injection Hrow as _ ->; by vm_compute. }
  split; [exact Hpenalty|]. split; [exact Hearned|].
  apply (karma_needs_a_correct_word Game.K false Game.karma
           (Bot.set_SQL_ENGINE Game.bot Play.crowd) _ Hpenalty Hearned).
Defined.



Lemma eagle_listed_in_play :
  let msg := Game.says 2 "eagle" in
  let db := Bot.SQL_ENGINE Game.bot in
  let whitelisted :=
    Bot.set_SQL_ENGINE Game.bot (WhitelistCmdGroup.add Game.K db 9 "Eagle").1 in
  let blacklisted :=
    Bot.set_SQL_ENGINE Game.bot (BlacklistCmdGroup.add Game.K db 9 "Eagle").1 in
  all_chars_in (POSSIBLE_CHARACTERS Game.K) (lower "Eagle") = true
  ∧ is_submission Game.K Game.bot msg
  ∧ Bot.is_word_whitelisted (lower "Eagle") 9 db = false
  ∧ Bot.exit (Game.on_message whitelisted msg Play.eagle_exists) ≠ Blacklisted
  ∧ Bot.exit (Game.on_message blacklisted msg Play.eagle_exists) = Blacklisted.
Proof.
  assert (all_chars_in (POSSIBLE_CHARACTERS Game.K) (lower "Eagle") = true) as Hlegal
    by (by vm_compute).
  assert (is_submission Game.K Game.bot (Game.says 2 "eagle")) as Hsubmission
    by (by vm_compute).
  assert (Bot.is_word_whitelisted (lower "Eagle") 9 (Bot.SQL_ENGINE Game.bot) = false)
    as Hfresh by (by vm_compute).
  split; [exact Hlegal|]. split; [exact Hsubmission|]. split; [exact Hfresh|].
  assert (2 ≤ String.length "Eagle")%nat as Hlong by (simpl; lia).
  destruct (list_commands_in_play Game.K false Game.karma Game.bot 9 "Eagle"
              (Game.says 2 "eagle") Play.eagle_exists Hlegal Hlong Hsubmission
              eq_refl eq_refl)
    as ([Hwhite _] & Hblack & _).
  split; [exact Hwhite|]. by apply Hblack.
Defined.


Lemma stats_after_the_first_word :
  let r := Game.on_message Game.bot (Game.says 2 "elephant") HttpTimeout in
  let blocked := Game.on_message Game.bot (Game.says 2 "apple") HttpTimeout in
  Bot.member Game.db !! (9, 2) = None
  ∧ Bot.exit r = Accepted
  ∧ Bot.exit blocked = Repeated
  ∧ (∃ pos_by_score karma pos_by_karma,
       StatsCmdGroup.user (Bot.SQL_ENGINE (Bot.final r)) 9 2
       = UserStats 1 pos_by_score karma pos_by_karma 1 0 (1 / 1))
  ∧ StatsCmdGroup.user (Bot.SQL_ENGINE (Bot.final blocked)) 9 2
    = UserZeroDivisionError.
Proof.
  assert (Bot.member (Bot.SQL_ENGINE Game.bot) !! (guild_id (Game.says 2 "elephant"),
                                                   author_id (Game.says 2 "elephant"))
          = None) as Hnew by (by vm_compute).
  split; [exact Hnew|]. split; [by vm_compute|]. split; [by vm_compute|].
  split.
  - destruct (stats_user_after_the_first_submission Game.K false Game.karma Game.bot
                (Game.says 2 "elephant") HttpTimeout Hnew) as (_ & _ & Haccepted & _).
    apply Haccepted. by vm_compute.
  - destruct (stats_user_after_the_first_submission Game.K false Game.karma Game.bot
                (Game.says 2 "apple") HttpTimeout Hnew) as (_ & Hblocked & _).
    apply Hblocked. right. left. by vm_compute.
Defined.

Lemma set_channel_forgets_elephant :
  let r := Game.on_message Game.bot (Game.says 2 "elephant") HttpTimeout in
  let s := set_channel true 8 (Bot.final r) (Some Game.config) in
  Bot.exit r = Accepted
  ∧ Config.current_count (Bot._config (Bot.final r)) = 4 + 1
  ∧ Config.current_count (Bot._config s.1.1) = 4
  ∧ Config.current_word (Bot._config s.1.1) = Some "apple"
  ∧ Config.channel_id (Bot._config s.1.1) = Some 8
  ∧ (9, "elephant") ∈ Bot.used_words (Bot.SQL_ENGINE s.1.1).
Proof.
  assert (Bot.exit (Game.on_message Game.bot (Game.says 2 "elephant") HttpTimeout)
          = Accepted) as Hexit by (by vm_compute).
  split; [exact Hexit|].
  destruct (set_channel_reverts_to_the_file Game.K false Game.karma Game.bot
              (Game.says 2 "elephant") HttpTimeout 8 None) as (_ & _ & Haccepted).
  destruct (Haccepted Hexit) as (Hafter & _ & Hcount & Hword & Hchannel & _ & Hused).
  by repeat split.
Defined.

Lemma leaderboard_renumbers_the_eleventh :
  let board := leaderboard Play.ranking Play.in_server in
  Play.ranking ≠ []
  ∧ missing Play.in_server (take 10 Play.ranking) = 1%nat
  ∧ line_rows board = take 10 (List.filter (λ row : Z * Z, Play.in_server row.1) Play.ranking)
  ∧ board !! 0%nat = Some (Entry 2 2 11)
  ∧ board !! 9%nat = Some (Entry 1 11 2).
Proof.
  assert (Play.ranking ≠ []) as Hrows by done.
  split; [exact Hrows|]. split; [by vm_compute|].
  destruct (leaderboard_shows_the_first_ten_found Play.ranking Play.in_server)
    as (_ & Hboard & _).
  destruct (Hboard Hrows) as (Hshown & _).
  split; [exact Hshown|]. split; by vm_compute.
Defined.

Lemma prune_in_play :
  let r := prune Play.crowd 9 Play.in_server in
  r.2 = RemovedDataFor 1
  ∧ Bot.member r.1 !! (9, 1) = None
  ∧ Bot.member r.1 !! (9, 2) = Bot.member Play.crowd !! (9, 2)
  ∧ Bot.member r.1 !! (8, 2) = Bot.member Play.crowd !! (8, 2)
  ∧ size (Bot.member Play.crowd) = (size (Bot.member r.1) + 1)%nat.
Proof.
  assert ((prune Play.crowd 9 Play.in_server).2 = RemovedDataFor 1) as Hreply
    by (by vm_compute).
  split; [exact Hreply|].
  destruct (prune_removes_the_absent_members Play.crowd 9 Play.in_server)
    as (Hrows & _ & _ & _ & Hcount).
  split; [by rewrite Hrows|]. split; [by rewrite Hrows|]. split; [by rewrite Hrows|].
  by destruct (Hcount 1%nat Hreply).
Defined.

Lemma check_word_fails_to_reply_on_eagle :
  let r := check_word Game.K Game.bot 9 "Eagle" Play.eagle_exists in
  Bot.get_query_response Play.eagle_exists = Bot.API_RESPONSE_WORD_EXISTS
  ∧ replied r = false
  ∧ description r = ValidWord
  ∧ raised r = Some (SQLAlchemyError (CompileError ["words"]))
  ∧ Bot.SQL_ENGINE (bot_after r) = Bot.SQL_ENGINE Game.bot.
Proof.
  assert (Bot.get_query_response Play.eagle_exists = Bot.API_RESPONSE_WORD_EXISTS)
    as Hexists by (by vm_compute).
  split; [exact Hexists|].
  assert (all_chars_in (POSSIBLE_CHARACTERS Game.K) (lower "Eagle") = true
          ∧ String.length "Eagle" ≠ 1%nat
          ∧ Bot.is_word_whitelisted (lower "Eagle") 9 (Bot.SQL_ENGINE Game.bot) = false
          ∧ Bot.is_word_blacklisted Game.K (lower "Eagle") (Some 9)
              (Some (Bot.SQL_ENGINE Game.bot)) = false
          ∧ Bot.is_word_in_cache (lower "Eagle") (Bot.SQL_ENGINE Game.bot) = false
          ∧ Bot.get_query_response Play.eagle_exists = Bot.API_RESPONSE_WORD_EXISTS)
    as Hcase.
  { repeat split; try (by vm_compute). }
  pose proof (check_word_replies Game.K Game.bot 9 "Eagle" Play.eagle_exists) as H.
  cbv zeta in H.
  destruct H as (Hdb & _ & Hreplied & Hconfirmed & _).
  destruct (Hconfirmed Hcase) as (Hvalid & Hraised & _).
  split; [exact (proj2 Hreplied Hcase)|].
  split; [exact Hvalid|]. split; [exact Hraised|]. exact Hdb.
Defined.

Lemma stats_positions_in_play :
  StatsCmdGroup.user Play.crowd 9 1 = UserStats 4 1 2 1 4 0 (4 # 4)
  ∧ (∀ other m, other ≠ 1 →
       Bot.member Play.crowd !! (9, other) = Some m → Member.score m < 4).
Proof.
  assert (StatsCmdGroup.user Play.crowd 9 1 = UserStats 4 1 2 1 4 0 (4 # 4)) as Hreply
    by (by vm_compute).
  split; [exact Hreply|].
  destruct (stats_user_positions Play.crowd 9 1) as (_ & _ & Hshown).
  destruct (Hshown _ _ _ _ _ _ _ Hreply) as (_ & _ & _ & Hfirst & _).
  by apply Hfirst.
Defined.
